(** * ops/scripts/nginx_conf_utils.py: the nginx.conf inspector

    A shallow embedding of the provisioning helper that decides whether
    nginx.conf includes [<snippets_dir>/*.conf] inside its [http {}] block,
    and the properties of its comment stripper, block locator, include
    matcher and command-line adapter. *)

From Stdlib Require Import String Ascii List NArith ZArith Bool Lia.
Import ListNotations.

(** ** Text *)

(** A Python [str] is a sequence of Unicode code points. *)
Definition char := N.
Definition str := list char.

Definition chr (a : ascii) : char := N_of_ascii a.
Definition lit (s : string) : str := map N_of_ascii (list_ascii_of_string s).
Arguments chr a%_char.
Arguments lit s%_string.

Definition hash : char := chr "#".
Definition semicolon : char := chr ";".
Definition slash : char := chr "/".
Definition lbrace : char := chr "{".
Definition rbrace : char := chr "}".
Definition squote : char := chr "'".
Definition dquote : char := 34%N.
Definition LF : char := 10%N.
Definition CR : char := 13%N.

Fixpoint str_eqb (a b : str) : bool :=
  match a, b with
  | [], [] => true
  | x :: a', y :: b' => N.eqb x y && str_eqb a' b'
  | _, _ => false
  end.

(** [str.isspace] on one code point, which is also what [\s] matches in a
    [str] pattern: the Unicode white-space characters. *)
Definition isspace (c : char) : bool :=
  ((9 <=? c) && (c <=? 13) || (28 <=? c) && (c <=? 32)
   || (c =? 133) || (c =? 160) || (c =? 5760)
   || (8192 <=? c) && (c <=? 8202)
   || (c =? 8232) || (c =? 8233) || (c =? 8239) || (c =? 8287)
   || (c =? 12288))%N.

(** The line boundaries of [str.splitlines]. *)
Definition is_linebreak (c : char) : bool :=
  ((10 <=? c) && (c <=? 13) || (28 <=? c) && (c <=? 30)
   || (c =? 133) || (c =? 8232) || (c =? 8233))%N.

Fixpoint drop_while (p : char -> bool) (s : str) : str :=
  match s with
  | c :: s' => if p c then drop_while p s' else s
  | [] => []
  end.

Fixpoint take_while (p : char -> bool) (s : str) : str :=
  match s with
  | c :: s' => if p c then c :: take_while p s' else []
  | [] => []
  end.

(** [s.lstrip()], [s.rstrip()], [s.strip()] and [s.rstrip(chars)]. *)
Definition py_lstrip (s : str) : str := drop_while isspace s.
Definition py_rstrip_with (p : char -> bool) (s : str) : str :=
  rev (drop_while p (rev s)).
Definition py_rstrip (s : str) : str := py_rstrip_with isspace s.
Definition py_strip (s : str) : str := py_rstrip (py_lstrip s).
Definition py_rstrip_char (c : char) (s : str) : str :=
  py_rstrip_with (N.eqb c) s.

Fixpoint startswith (s prefix : str) {struct prefix} : bool :=
  match prefix, s with
  | [], _ => true
  | p :: prefix', c :: s' => N.eqb c p && startswith s' prefix'
  | _ :: _, [] => false
  end.

Definition endswith (s suffix : str) : bool :=
  startswith (rev s) (rev suffix).

(** [l[start:stop]], negative bounds counted from the end, both clamped. *)
Definition py_slice {A : Type} (l : list A) (start stop : Z) : list A :=
  let n := Z.of_nat (length l) in
  let norm (i : Z) := if (i <? 0)%Z then Z.max 0 (i + n) else Z.min i n in
  let a := norm start in
  let b := norm stop in
  firstn (Z.to_nat (b - a)) (skipn (Z.to_nat a) l).

Definition removeprefix (s prefix : str) : str :=
  if startswith s prefix then skipn (length prefix) s else s.

(** [s.split(sep, 1)] for a one-character separator: the text before the
    first [sep], then the text after it when [sep] occurs. *)
Fixpoint split_once (sep : char) (s : str) : str * option str :=
  match s with
  | [] => ([], None)
  | c :: s' =>
      if N.eqb c sep then ([], Some s')
      else let (a, b) := split_once sep s' in (c :: a, b)
  end.

(** [s.splitlines(keepends=True)]; [cur] holds the current line reversed. *)
Fixpoint splitlines_from (cur : str) (s : str) : list str :=
  match s with
  | [] => match cur with [] => [] | _ :: _ => [rev cur] end
  | c :: s' =>
      if N.eqb c CR then
        match s' with
        | d :: s'' =>
            if N.eqb d LF then rev (d :: c :: cur) :: splitlines_from [] s''
            else rev (c :: cur) :: splitlines_from [] s'
        | [] => rev (c :: cur) :: splitlines_from [] s'
        end
      else if is_linebreak c then rev (c :: cur) :: splitlines_from [] s'
      else splitlines_from (c :: cur) s'
  end.

Definition splitlines (s : str) : list str := splitlines_from [] s.

(** ** Exceptions *)

Inductive exn :=
| IndexError
| FileNotFoundError
| IsADirectoryError
| PermissionError.

Inductive result (A : Type) :=
| Ok (a : A)
| Raise (e : exn).
Arguments Ok {A} a.
Arguments Raise {A} e.

Definition bind {A B : Type} (m : result A) (f : A -> result B) : result B :=
  match m with
  | Ok a => f a
  | Raise e => Raise e
  end.

Notation "x <- m ;; k" := (bind m (fun x => k))
  (at level 61, m at next level, right associativity).

(** [l[i]] for a non-negative [i]. *)
Definition py_index {A : Type} (l : list A) (i : nat) : result A :=
  match nth_error l i with
  | Some a => Ok a
  | None => Raise IndexError
  end.

(** ** Regular expressions

    The fragment of [re] the module's four patterns use, matched the way
    [re.match] does: anchored at position 0, greedy repetition, backtracking
    into shorter repetitions when the rest of the pattern fails. *)

Inductive cset :=
| CChar (c : char)      (* a literal character *)
| CSpace                (* \s *)
| CNot (c : char).      (* [^c] *)

Definition in_cset (cs : cset) (x : char) : bool :=
  match cs with
  | CChar c => N.eqb x c
  | CSpace => isspace x
  | CNot c => negb (N.eqb x c)
  end.

Inductive node :=
| At_beginning          (* ^ *)
| At_end                (* $ *)
| One (cs : cset)
| Star (cs : cset)      (* cs* *)
| Plus (cs : cset)      (* cs+ *)
| Mark_open             (* ( of group 1 *)
| Mark_close.           (* ) of group 1 *)

Definition regex := list node.

(** The bounds of group 1, as positions in the subject. *)
Definition marks := (option nat * option nat)%type.

(** [$] without [re.MULTILINE]: the end of the subject, or just before a
    newline that ends it. *)
Definition at_end (rest : str) : bool :=
  match rest with
  | [] => true
  | [c] => N.eqb c LF
  | _ => false
  end.

Fixpoint greedy (cs : cset) (k : nat -> str -> option marks)
    (pos : nat) (rest : str) : option marks :=
  match rest with
  | x :: r =>
      if in_cset cs x then
        match greedy cs k (S pos) r with
        | Some m => Some m
        | None => k pos rest
        end
      else k pos rest
  | [] => k pos rest
  end.

Fixpoint run (p : regex) (g : marks) (pos : nat) (rest : str) : option marks :=
  match p with
  | [] => Some g
  | At_beginning :: p' => if Nat.eqb pos 0 then run p' g pos rest else None
  | At_end :: p' => if at_end rest then run p' g pos rest else None
  | One cs :: p' =>
      match rest with
      | x :: r => if in_cset cs x then run p' g (S pos) r else None
      | [] => None
      end
  | Star cs :: p' => greedy cs (run p' g) pos rest
  | Plus cs :: p' =>
      match rest with
      | x :: r => if in_cset cs x then greedy cs (run p' g) (S pos) r else None
      | [] => None
      end
  | Mark_open :: p' => run p' (Some pos, snd g) pos rest
  | Mark_close :: p' => run p' (fst g, Some pos) pos rest
  end.

(** [pattern.match(subject)]: the match object, here the marks, or [None]. *)
Definition re_match (p : regex) (subject : str) : option marks :=
  run p (None, None) 0 subject.

(** [match.group(1)]. *)
Definition group1 (subject : str) (m : marks) : str :=
  match m with
  | (Some a, Some b) => firstn (b - a) (skipn a subject)
  | _ => []
  end.

Definition truthy {A : Type} (o : option A) : bool :=
  match o with Some _ => true | None => false end.

Definition literal (s : str) : regex := map (fun c => One (CChar c)) s.

(** ** The module *)

(** [INCLUDE_RE = re.compile(r"^\s*include\s+([^;]+)\s*;\s*$")] *)
Definition INCLUDE_RE : regex :=
  [At_beginning; Star CSpace] ++ literal (lit "include")
  ++ [Plus CSpace; Mark_open; Plus (CNot semicolon); Mark_close;
      Star CSpace; One (CChar semicolon); Star CSpace; At_end].

(** [r"^\s*http\s*\{"], [r"^\s*http\s*$"] and [r"^\s*\{"], the patterns
    [find_http_block] matches in place. *)
Definition HTTP_OPEN_RE : regex :=
  [At_beginning; Star CSpace] ++ literal (lit "http")
  ++ [Star CSpace; One (CChar lbrace)].

Definition HTTP_ALONE_RE : regex :=
  [At_beginning; Star CSpace] ++ literal (lit "http") ++ [Star CSpace; At_end].

Definition BRACE_RE : regex :=
  [At_beginning; Star CSpace; One (CChar lbrace)].

Definition _strip_comments (line : str) : str :=
  fst (split_once hash line).

Definition _count_char (text : str) (c : char) : Z :=
  Z.of_nat (count_occ N.eq_dec text c).

Definition _unquote (value : str) : str :=
  let value := py_strip value in
  if (startswith value [dquote] && endswith value [dquote])
     || (startswith value [squote] && endswith value [squote])
  then py_strip (py_slice value 1 (-1))
  else value.

Definition _parse_include_path (line : str) : option str :=
  let cleaned := py_rstrip_char LF (_strip_comments line) in
  match re_match INCLUDE_RE cleaned with
  | None => None
  | Some m => Some (_unquote (group1 cleaned m))
  end.

Record HttpBlock := mkHttpBlock {
  start_line_index : nat;
  end_line_index : nat  (* inclusive *)
}.

(** The first loop of [find_http_block], over [enumerate(lines)]: [index]
    and [rest] are the position reached and the lines from there on. *)
Fixpoint find_http_open (lines : list str) (index : nat) (rest : list str)
  : result (option nat) :=
  match rest with
  | [] => Ok None
  | raw :: rest' =>
      let line := _strip_comments raw in
      if truthy (re_match HTTP_OPEN_RE line) then Ok (Some index)
      else if truthy (re_match HTTP_ALONE_RE line) then
        if index + 1 <? length lines then
          next <- py_index lines (index + 1) ;;
          if truthy (re_match BRACE_RE (_strip_comments next))
          then Ok (Some (index + 1))
          else find_http_open lines (S index) rest'
        else find_http_open lines (S index) rest'
      else find_http_open lines (S index) rest'
  end.

(** The second loop, over [range(http_open_index, len(lines))]. *)
Fixpoint scan_depth (lines : list str) (http_open_index : nat) (depth : Z)
    (indices : list nat) : result (option HttpBlock) :=
  match indices with
  | [] => Ok None
  | index :: indices' =>
      raw <- py_index lines index ;;
      let line := _strip_comments raw in
      let depth := (depth + _count_char line lbrace)%Z in
      let depth := (depth - _count_char line rbrace)%Z in
      if (depth =? 0)%Z && (http_open_index <? index)
      then Ok (Some {| start_line_index := http_open_index;
                       end_line_index := index |})
      else scan_depth lines http_open_index depth indices'
  end.

Definition py_range (a b : nat) : list nat := seq a (b - a).

Definition find_http_block (lines : list str) : result (option HttpBlock) :=
  http_open_index <- find_http_open lines 0 lines ;;
  match http_open_index with
  | None => Ok None
  | Some http_open_index =>
      scan_depth lines http_open_index 0
        (py_range http_open_index (length lines))
  end.

Definition include_abs (snippets_dir : str) : str :=
  py_rstrip_char slash snippets_dir ++ lit "/*.conf".

Definition include_rel (snippets_dir : str) : str :=
  removeprefix (py_rstrip_char slash snippets_dir) (lit "/etc/nginx/")
  ++ lit "/*.conf".

Definition targets (snippets_dir : str) : list str :=
  [include_abs snippets_dir; include_rel snippets_dir].

(** [include_path and include_path in targets] *)
Definition include_hit (tgts : list str) (include_path : option str) : bool :=
  match include_path with
  | None => false
  | Some p =>
      match p with
      | [] => false
      | _ :: _ => existsb (str_eqb p) tgts
      end
  end.

(** The loop over the lines of the block, returning at the first hit. *)
Fixpoint scan_includes (tgts : list str) (span : list str) : bool :=
  match span with
  | [] => false
  | raw :: span' =>
      if include_hit tgts (_parse_include_path raw) then true
      else scan_includes tgts span'
  end.

(** What stands at a path: a file that can be read, with the text
    [read_text(encoding="utf-8", errors="replace")] decodes from it (the
    decoding itself never fails), a directory, or a file the process may
    not read. *)
Inductive entry :=
| Regular (text : str)
| Directory
| Protected.

(** A path, given by its text, is mapped to what stands there, or to
    nothing when nothing does. *)
Definition filesystem := str -> option entry.

(** [Path.exists()]: true of whatever stands at the path, readable or not. *)
Definition path_exists (fs : filesystem) (p : str) : bool := truthy (fs p).

Definition read_text (fs : filesystem) (p : str) : result str :=
  match fs p with
  | Some (Regular text) => Ok text
  | Some Directory => Raise IsADirectoryError
  | Some Protected => Raise PermissionError
  | None => Raise FileNotFoundError
  end.

(** The body of [nginx_conf_includes_snippets] once the lines are read. *)
Definition includes_snippets_in (lines : list str) (snippets_dir : str)
  : result bool :=
  block <- find_http_block lines ;;
  match block with
  | None => Ok false
  | Some block =>
      Ok (scan_includes (targets snippets_dir)
            (py_slice lines (Z.of_nat (start_line_index block))
               (Z.of_nat (end_line_index block) + 1)))
  end.

Definition nginx_conf_includes_snippets (fs : filesystem) (conf_path : str)
    (snippets_dir : str) : result bool :=
  text <- read_text fs conf_path ;;
  includes_snippets_in (splitlines text) snippets_dir.

(** ** The command *)

Record Namespace := {
  conf : str;
  snippets_dir : str;
  verbose : bool
}.

(** What the process has written so far, one entry per [print]. *)
Record streams := {
  stdout : list str;
  stderr : list str
}.

Definition print (text : str) (io : streams) : streams :=
  {| stdout := stdout io ++ [text ++ [LF]]; stderr := stderr io |}.

Definition print_stderr (text : str) (io : streams) : streams :=
  {| stdout := stdout io; stderr := stderr io ++ [text ++ [LF]] |}.

(** [str.split(sep)] for a one-character separator. *)
Fixpoint split_on (sep : char) (s : str) : list str :=
  match s with
  | [] => [[]]
  | c :: s' =>
      if N.eqb c sep then [] :: split_on sep s'
      else match split_on sep s' with
           | part :: parts => (c :: part) :: parts
           | [] => [[c]]
           end
  end.

(** [sep.join(parts)]. *)
Fixpoint join (sep : str) (parts : list str) : str :=
  match parts with
  | [] => []
  | [part] => part
  | part :: parts' => part ++ sep ++ join sep parts'
  end.

(** [posixpath.splitroot] without the drive, which is always empty: the
    root is [//] for exactly two leading slashes, [/] for one or for three
    and more, and empty otherwise. *)
Definition splitroot (p : str) : str * str :=
  match p with
  | c1 :: r1 =>
      if N.eqb c1 slash then
        match r1 with
        | c2 :: r2 =>
            if N.eqb c2 slash then
              match r2 with
              | c3 :: _ => if N.eqb c3 slash then ([slash], r1)
                           else ([slash; slash], r2)
              | [] => ([slash; slash], r2)
              end
            else ([slash], r1)
        | [] => ([slash], r1)
        end
      else ([], p)
  | [] => ([], p)
  end.

(** [str(Path(s))] on a POSIX system: the root, then the components that
    are neither empty nor [.], joined by single slashes; [.] when nothing
    is left. *)
Definition path_str (s : str) : str :=
  let (root, rel) := splitroot s in
  let tail :=
    filter (fun x => negb (str_eqb x []) && negb (str_eqb x (lit ".")))
      (split_on slash rel) in
  match root ++ join [slash] tail with
  | [] => lit "."
  | c :: text => c :: text
  end.

(** [conf = Path(args.conf)] is carried as its text: the file system is
    asked about [str(conf)], and the message prints it. *)
Definition _cmd_includes_snippets (fs : filesystem) (args : Namespace)
    (io : streams) : result Z * streams :=
  let conf := path_str (conf args) in
  if negb (path_exists fs conf) then
    (Ok 2%Z,
     print_stderr (lit "ERROR: nginx config not found: " ++ conf) io)
  else
    match nginx_conf_includes_snippets fs conf (snippets_dir args) with
    | Raise e => (Raise e, io)
    | Ok ok =>
        let io := if verbose args
                  then print (if ok then lit "yes" else lit "no") io
                  else io in
        (Ok (if ok then 0%Z else 1%Z), io)
    end.

Definition no_output : streams := {| stdout := []; stderr := [] |}.

(** ** Vocabulary of the statements *)

Definition blank (s : str) : bool := forallb isspace s.

Definition not_semicolon (c : char) : bool := negb (N.eqb c semicolon).

(** The shapes the three block patterns accept, spelled out on the text. *)
Definition one_line_open (line : str) : Prop :=
  exists ws1 ws2 rest,
    line = ws1 ++ lit "http" ++ ws2 ++ lbrace :: rest
    /\ blank ws1 = true /\ blank ws2 = true.

Definition http_alone (line : str) : Prop :=
  exists ws1 ws2,
    line = ws1 ++ lit "http" ++ ws2 /\ blank ws1 = true /\ blank ws2 = true.

Definition brace_first (line : str) : Prop :=
  exists ws rest, line = ws ++ lbrace :: rest /\ blank ws = true.

(** The text from the first [;] on is that [;] and white space only. *)
Definition tail_ok (t : str) : bool :=
  match t with
  | c :: tail => N.eqb c semicolon && blank tail
  | [] => false
  end.

(** What one raw line adds to the brace depth. *)
Definition brace_delta (raw : str) : Z :=
  (Z.of_nat (count_occ N.eq_dec (_strip_comments raw) lbrace)
   - Z.of_nat (count_occ N.eq_dec (_strip_comments raw) rbrace))%Z.

Fixpoint sumZ (l : list Z) : Z :=
  match l with
  | [] => 0%Z
  | x :: l' => (x + sumZ l')%Z
  end.

(** The brace depth accumulated over the lines [o .. e], both included. *)
Definition depth_at (lines : list str) (o e : nat) : Z :=
  sumZ (map brace_delta (firstn (S e - o) (skipn o lines))).

(** Line [i] opens the block in one of the two accepted forms, and [o] is
    the line that carries the opening brace: [i] itself for [http {], the
    next line for [http] alone followed by a line that starts with [{]. *)
Definition opening_at (lines : list str) (i o : nat) : Prop :=
  exists raw,
    nth_error lines i = Some raw
    /\ ((one_line_open (_strip_comments raw) /\ o = i)
        \/ (http_alone (_strip_comments raw) /\ o = i + 1
            /\ exists next, nth_error lines (i + 1) = Some next
                            /\ brace_first (_strip_comments next))).

(** [o] is the opening line found by scanning from the top. *)
Definition first_opening (lines : list str) (o : nat) : Prop :=
  exists i, opening_at lines i o
            /\ forall j o', j < i -> ~ opening_at lines j o'.

(** [b] is the span from the opening line to the first later line where the
    depth is back to 0. *)
Definition located (lines : list str) (b : HttpBlock) : Prop :=
  first_opening lines (start_line_index b)
  /\ start_line_index b < end_line_index b < length lines
  /\ depth_at lines (start_line_index b) (end_line_index b) = 0%Z
  /\ forall e, start_line_index b < e < end_line_index b ->
               depth_at lines (start_line_index b) e <> 0%Z.

(** No line opens a block, or the depth never returns to 0 after the
    opening line. *)
Definition no_block (lines : list str) : Prop :=
  (forall i o, ~ opening_at lines i o)
  \/ exists o, first_opening lines o
               /\ forall e, o < e < length lines -> depth_at lines o e <> 0%Z.

(** The data-model invariant as the specification words it: the depth is 0
    at the end line and positive at every line from the start line up to
    the line before the end line. *)
Definition spec_block_invariant (lines : list str) (b : HttpBlock) : Prop :=
  start_line_index b <= end_line_index b
  /\ depth_at lines (start_line_index b) (end_line_index b) = 0%Z
  /\ forall e, start_line_index b <= e < end_line_index b ->
               (0 < depth_at lines (start_line_index b) e)%Z.

(** What [INCLUDE_RE] captures in group 1, read off the text without
    backtracking: after [include] and its white space [w], the text [g] up
    to the first [;], provided only white space follows that [;]. When [g]
    is empty the group falls back on the last character of [w]. *)
Definition include_capture (cleaned : str) : option str :=
  let s := drop_while isspace cleaned in
  if startswith s (lit "include") then
    let r := skipn 7 s in
    let w := take_while isspace r in
    let g := take_while not_semicolon (drop_while isspace r) in
    let t := drop_while not_semicolon (drop_while isspace r) in
    if tail_ok t then
      match g with
      | _ :: _ => match w with [] => None | _ :: _ => Some g end
      | [] => match w with _ :: _ :: _ => Some [last w 0%N] | _ => None end
      end
    else None
  else None.

(** The tail of the include pattern, from the capture on. *)
Definition INCLUDE_TAIL : regex :=
  [Star CSpace; One (CChar semicolon); Star CSpace; At_end].

(** The raw line, stripped of its comment, reads [include <argument>;]
    between optional white space, the argument being text without [;],
    and [p] is what [_unquote] makes of that argument. *)
Definition include_directive (raw p : str) : Prop :=
  exists w0 w1 arg w2 w3,
    _strip_comments raw
    = w0 ++ lit "include" ++ w1 ++ arg ++ w2 ++ semicolon :: w3
    /\ blank w0 = true
    /\ w1 <> [] /\ blank w1 = true
    /\ arg <> [] /\ forallb not_semicolon arg = true
    /\ blank w2 = true /\ blank w3 = true
    /\ p = _unquote arg.

(** [p] is the argument [arg] unquoted, in words: the argument is trimmed;
    when the trimmed text is wrapped in a pair of matching single or
    double quotes, they are removed and what was between them is trimmed;
    otherwise the trimmed argument is taken as it is. *)
Definition unquoted_as (arg p : str) : Prop :=
  (exists q inner,
      (q = dquote \/ q = squote)
      /\ py_strip arg = q :: inner ++ [q]
      /\ p = py_strip inner)
  \/ ((forall q inner, q = dquote \/ q = squote ->
                       py_strip arg <> q :: inner ++ [q])
      /\ p = py_strip arg).

(** The raw line, stripped of its comment, reads [include <argument>;]
    between optional white space, the argument being text without [;],
    and [p] is that argument unquoted as the words above say. *)
Definition include_line (raw p : str) : Prop :=
  exists w0 w1 arg w2 w3,
    _strip_comments raw
    = w0 ++ lit "include" ++ w1 ++ arg ++ w2 ++ semicolon :: w3
    /\ blank w0 = true
    /\ w1 <> [] /\ blank w1 = true
    /\ arg <> [] /\ forallb not_semicolon arg = true
    /\ blank w2 = true /\ blank w3 = true
    /\ unquoted_as arg p.

(** Some line of the located span, both ends included, is an include
    directive whose path is one of the two targets. *)
Definition include_in_block (lines : list str) (dir : str) : Prop :=
  exists b i raw p,
    find_http_block lines = Ok (Some b)
    /\ start_line_index b <= i <= end_line_index b
    /\ nth_error lines i = Some raw
    /\ include_line raw p
    /\ (p = include_abs dir \/ p = include_rel dir).

(** A file system holding one readable file, whatever the path asked for. *)
Definition single_file (text : str) : filesystem :=
  fun _ => Some (Regular text).

(** Target (b) in the specification's words: the [/etc/nginx/] prefix is
    removed from the snippets directory first, then the trailing slashes,
    then [/*.conf] is added. *)
Definition spec_include_rel (snippets_dir : str) : str :=
  py_rstrip_char slash (removeprefix snippets_dir (lit "/etc/nginx/"))
  ++ lit "/*.conf".

(** The same span, [n] lines further down. *)
Definition shift_block (n : nat) (b : HttpBlock) : HttpBlock :=
  {| start_line_index := n + start_line_index b;
     end_line_index := n + end_line_index b |}.

(** The test [_unquote] makes on the trimmed text. *)
Definition quote_wrapped (v : str) : bool :=
  (startswith v [dquote] && endswith v [dquote])
  || (startswith v [squote] && endswith v [squote]).

(** ** Sample files *)

Definition conf_quoted_abs : str :=
  lit "http {" ++ [LF] ++ lit "    include " ++ [dquote]
  ++ lit "/etc/nginx/conf.d/*.conf" ++ [dquote] ++ lit ";" ++ [LF]
  ++ lit "}" ++ [LF].

Definition conf_relative : str :=
  lit "http {" ++ [LF] ++ lit "    include conf.d/*.conf;" ++ [LF]
  ++ lit "}" ++ [LF].

Definition conf_two_line : str :=
  lit "events {}" ++ [LF] ++ lit "http" ++ [LF] ++ lit "{" ++ [LF]
  ++ lit "    include conf.d/*.conf;  # snippets" ++ [LF]
  ++ lit "}" ++ [LF].

Definition conf_outside : str :=
  lit "include conf.d/*.conf;" ++ [LF]
  ++ lit "http {" ++ [LF] ++ lit "    server { listen 80; }" ++ [LF]
  ++ lit "}" ++ [LF] ++ lit "include conf.d/*.conf;" ++ [LF].

(** A stray closing brace takes the depth below 0 inside the span. *)
Definition conf_stray_brace : str :=
  lit "http {" ++ [LF] ++ lit "    server { listen 80; }}}" ++ [LF]
  ++ lit "events {" ++ [LF] ++ lit "}" ++ [LF].

(** A block opened and closed on one line, then an include outside it. *)
Definition conf_include_after_block : str :=
  lit "http { server_tokens off; }" ++ [LF]
  ++ lit "include conf.d/*.conf;" ++ [LF].

(** A block with a nested block and an include, as lines. *)
Definition nested_lines : list str :=
  [lit "http {" ++ [LF];
   lit "    server {" ++ [LF];
   lit "        listen 80;" ++ [LF];
   lit "    }" ++ [LF];
   lit "    include conf.d/*.conf;" ++ [LF];
   lit "}" ++ [LF];
   lit "events {}" ++ [LF]].

(** The body of a properly nested block. *)
Definition nested_body : list str :=
  [lit "    server {" ++ [LF];
   lit "        listen 80;  # {" ++ [LF];
   lit "    }" ++ [LF];
   lit "    include conf.d/*.conf;" ++ [LF]].

(** * Properties *)

Example sample_quoted_abs :
  includes_snippets_in (splitlines conf_quoted_abs) (lit "/etc/nginx/conf.d")
  = Ok true.
Proof. vm_compute. reflexivity. Qed.

Example sample_relative :
  includes_snippets_in (splitlines conf_relative) (lit "/etc/nginx/conf.d")
  = Ok true.
Proof. vm_compute. reflexivity. Qed.

Example sample_two_line :
  find_http_block (splitlines conf_two_line)
  = Ok (Some {| start_line_index := 2; end_line_index := 4 |})
  /\ includes_snippets_in (splitlines conf_two_line) (lit "/etc/nginx/conf.d/")
     = Ok true.
Proof. vm_compute. split; reflexivity. Qed.

Example sample_outside :
  includes_snippets_in (splitlines conf_outside) (lit "/etc/nginx/conf.d")
  = Ok false.
Proof. vm_compute. reflexivity. Qed.

(** ** Lists of code points *)

Lemma str_eqb_eq (a b : str) : str_eqb a b = true <-> a = b.
Proof.
  revert b; induction a as [|x a IH]; intros [|y b]; simpl;
    try (split; [discriminate | congruence]); try tauto.
  rewrite andb_true_iff, N.eqb_eq, IH. split.
  - intros [-> ->]; reflexivity.
  - intros E; injection E; auto.
Qed.

Lemma take_drop_while (p : char -> bool) (s : str) :
  take_while p s ++ drop_while p s = s.
Proof.
  induction s as [|c s IH]; simpl; [reflexivity|].
  destruct (p c); simpl; [rewrite IH|]; reflexivity.
Qed.

Lemma take_while_all (p : char -> bool) (s : str) :
  forallb p (take_while p s) = true.
Proof.
  induction s as [|c s IH]; simpl; [reflexivity|].
  destruct (p c) eqn:E; simpl; [rewrite E; exact IH | reflexivity].
Qed.

Lemma drop_while_head (p : char -> bool) (s : str) :
  match drop_while p s with
  | [] => True
  | c :: _ => p c = false
  end.
Proof.
  induction s as [|c s IH]; simpl; [exact I|].
  destruct (p c) eqn:E; [exact IH | exact E].
Qed.

Lemma drop_while_app (p : char -> bool) (a r : str) :
  forallb p a = true -> drop_while p (a ++ r) = drop_while p r.
Proof.
  induction a as [|c a IH]; simpl; [reflexivity|].
  intros H; apply andb_true_iff in H as [-> H]; auto.
Qed.

Lemma take_while_app (p : char -> bool) (a r : str) :
  forallb p a = true -> take_while p (a ++ r) = a ++ take_while p r.
Proof.
  induction a as [|c a IH]; simpl; [reflexivity|].
  intros H; apply andb_true_iff in H as [-> H]; rewrite IH; auto.
Qed.

Lemma drop_while_stop (p : char -> bool) (s : str) :
  match s with [] => True | c :: _ => p c = false end ->
  drop_while p s = s.
Proof. destruct s as [|c s]; simpl; [reflexivity | intros ->; reflexivity]. Qed.

Lemma take_while_stop (p : char -> bool) (s : str) :
  match s with [] => True | c :: _ => p c = false end ->
  take_while p s = [].
Proof. destruct s as [|c s]; simpl; [reflexivity | intros ->; reflexivity]. Qed.

Lemma startswith_app (p r : str) : startswith (p ++ r) p = true.
Proof.
  induction p as [|c p IH]; simpl; [reflexivity|].
  rewrite N.eqb_refl; exact IH.
Qed.

Lemma startswith_split (s p : str) :
  startswith s p = true -> s = p ++ skipn (length p) s.
Proof.
  revert s; induction p as [|c p IH]; intros s; simpl; [reflexivity|].
  destruct s as [|x s]; [discriminate|].
  intros H; apply andb_true_iff in H as [E H].
  apply N.eqb_eq in E; subst x. simpl. f_equal; auto.
Qed.

Lemma skipn_app_exact (A : Type) (p r : list A) : skipn (length p) (p ++ r) = r.
Proof. induction p; simpl; auto. Qed.

Lemma firstn_app_exact (A : Type) (p r : list A) : firstn (length p) (p ++ r) = p.
Proof. induction p; simpl; [destruct r|f_equal]; auto. Qed.

(** ** The comment stripper *)

Lemma split_once_parts (sep : char) (s : str) :
  ~ In sep (fst (split_once sep s))
  /\ s = fst (split_once sep s)
         ++ match snd (split_once sep s) with
            | Some post => sep :: post
            | None => []
            end.
Proof.
  induction s as [|c s [IH1 IH2]]; simpl; [auto|].
  destruct (N.eqb c sep) eqn:E.
  - apply N.eqb_eq in E; subst c; simpl; auto.
  - apply N.eqb_neq in E.
    destruct (split_once sep s) as [a b]; simpl in *. split.
    + intros [H|H]; [congruence | auto].
    + f_equal; exact IH2.
Qed.

Lemma split_once_at (sep : char) (pre post : str) :
  ~ In sep pre -> split_once sep (pre ++ sep :: post) = (pre, Some post).
Proof.
  induction pre as [|c pre IH]; simpl; intros H.
  - rewrite N.eqb_refl; reflexivity.
  - destruct (N.eqb c sep) eqn:E.
    + apply N.eqb_eq in E; tauto.
    + rewrite IH by tauto; reflexivity.
Qed.

Lemma split_once_absent (sep : char) (s : str) :
  ~ In sep s -> split_once sep s = (s, None).
Proof.
  induction s as [|c s IH]; simpl; intros H; [reflexivity|].
  destruct (N.eqb c sep) eqn:E.
  - apply N.eqb_eq in E; tauto.
  - rewrite IH by tauto; reflexivity.
Qed.

Lemma strip_comments_before (pre post : str) :
  ~ In hash pre -> _strip_comments (pre ++ hash :: post) = pre.
Proof. intros H; unfold _strip_comments; rewrite split_once_at; auto. Qed.

Lemma strip_comments_none (line : str) :
  ~ In hash line -> _strip_comments line = line.
Proof. intros H; unfold _strip_comments; rewrite split_once_absent; auto. Qed.

Lemma strip_comments_no_hash (line : str) : ~ In hash (_strip_comments line).
Proof. apply split_once_parts. Qed.

(** Whatever follows a [#] is invisible to the stripper. *)
Lemma strip_comments_cut (pre post : str) :
  _strip_comments (pre ++ hash :: post) = _strip_comments pre.
Proof.
  unfold _strip_comments.
  destruct (split_once_parts hash pre) as [H1 H2].
  destruct (snd (split_once hash pre)) as [mid|] eqn:E.
  - rewrite H2 at 1. rewrite <- app_assoc. simpl.
    rewrite split_once_at by exact H1. reflexivity.
  - rewrite app_nil_r in H2. rewrite <- H2.
    rewrite split_once_at; [reflexivity|]. rewrite H2; exact H1.
Qed.

(** C7: the comment stripper returns the text before the first [#] of the
    line, unchanged (white space and line ends included), and the whole
    line when it holds no [#]; which characters surround the [#], quotes
    among them, plays no part. *)
Theorem strip_comments_first_hash (line : str) :
  ~ In hash (_strip_comments line)
  /\ (line = _strip_comments line
      \/ exists post, line = _strip_comments line ++ hash :: post)
  /\ (In hash line <-> line <> _strip_comments line)
  /\ (forall s1 s2 : str,
        ~ In hash s1 ->
        _strip_comments (lit "include " ++ dquote :: s1 ++ hash :: s2 ++ [dquote; semicolon])
        = lit "include " ++ dquote :: s1).
Proof.
  destruct (split_once_parts hash line) as [H1 H2].
  fold (_strip_comments line) in H1, H2.
  split; [exact H1|]. split; [|split].
  - destruct (snd (split_once hash line)) as [post|].
    + right; exists post; exact H2.
    + left; rewrite app_nil_r in H2; exact H2.
  - split.
    + intros Hin E. rewrite E in Hin. exact (H1 Hin).
    + intros Hne. destruct (snd (split_once hash line)) as [post|].
      * rewrite H2. apply in_or_app; right; left; reflexivity.
      * rewrite app_nil_r in H2. congruence.
  - intros s1 s2 Hs1.
    change (lit "include " ++ dquote :: s1 ++ hash :: s2 ++ [dquote; semicolon])
      with ((lit "include " ++ [dquote]) ++ s1 ++ hash :: s2 ++ [dquote; semicolon]).
    rewrite app_assoc. rewrite strip_comments_before.
    + rewrite <- app_assoc; reflexivity.
    + intros Hin. apply in_app_or in Hin as [Hin|Hin]; [|auto].
      vm_compute in Hin. intuition discriminate.
Qed.

(** ** The matcher *)

(** A repetition followed by something that cannot start with a character
    of the repeated set never backtracks. *)
Lemma greedy_commit (cs : cset) (k : nat -> str -> option marks) :
  (forall pos x r, in_cset cs x = true -> k pos (x :: r) = None) ->
  forall rest pos,
    greedy cs k pos rest
    = k (pos + length (take_while (in_cset cs) rest))
        (drop_while (in_cset cs) rest).
Proof.
  intros Hk rest; induction rest as [|x r IH]; intros pos; simpl.
  - rewrite Nat.add_0_r; reflexivity.
  - destruct (in_cset cs x) eqn:E; simpl.
    + rewrite IH, (Hk pos x r E), Nat.add_succ_r. simpl.
      destruct (k _ _); reflexivity.
    + rewrite Nat.add_0_r; reflexivity.
Qed.

Lemma space_not_char (x c : char) :
  isspace c = false -> isspace x = true -> N.eqb x c = false.
Proof.
  intros Hc Hx. destruct (N.eqb x c) eqn:E; [|reflexivity].
  apply N.eqb_eq in E; congruence.
Qed.

(** [\s*] before a character that is no white space skips the white space. *)
Lemma run_star_space_char (c : char) (p : regex) (g : marks) (pos : nat) (rest : str) :
  isspace c = false ->
  run (Star CSpace :: One (CChar c) :: p) g pos rest
  = run (One (CChar c) :: p) g (pos + length (take_while isspace rest))
      (drop_while isspace rest).
Proof.
  intros Hc. simpl run at 1.
  rewrite greedy_commit; [reflexivity|].
  intros pos' x r Hx. simpl in *. rewrite (space_not_char x c Hc Hx). reflexivity.
Qed.

Lemma run_literal (s : str) (p : regex) (g : marks) (pos : nat) (rest : str) :
  run (literal s ++ p) g pos rest
  = if startswith rest s
    then run p g (pos + length s) (skipn (length s) rest)
    else None.
Proof.
  revert pos rest; induction s as [|c s IH]; intros pos rest; simpl.
  - rewrite Nat.add_0_r; reflexivity.
  - destruct rest as [|x r]; [reflexivity|]. simpl.
    destruct (N.eqb x c); simpl; [|reflexivity].
    rewrite IH, Nat.add_succ_r; reflexivity.
Qed.

(** [\s*$] asks for white space up to the end. *)
Lemma run_star_space_end (g : marks) (pos : nat) (rest : str) :
  run [Star CSpace; At_end] g pos rest = if blank rest then Some g else None.
Proof.
  simpl run. revert pos; induction rest as [|x r IH]; intros pos; simpl.
  - reflexivity.
  - destruct (isspace x) eqn:E; simpl.
    + rewrite IH. destruct (blank r) eqn:B; [reflexivity|].
      destruct r as [|y r]; [discriminate B | reflexivity].
    + destruct r as [|y r]; [|reflexivity].
      destruct (N.eqb x LF) eqn:EL; [|reflexivity].
      apply N.eqb_eq in EL; subst x; discriminate E.
Qed.

Lemma run_star_space_literal (s : str) (p : regex) (g : marks) (pos : nat) (rest : str) :
  match s with c :: _ => isspace c = false | [] => False end ->
  run (Star CSpace :: literal s ++ p) g pos rest
  = run (literal s ++ p) g (pos + length (take_while isspace rest))
      (drop_while isspace rest).
Proof.
  destruct s as [|c s]; [intros []|]. intros Hc.
  exact (run_star_space_char c (literal s ++ p) g pos rest Hc).
Qed.

(** ** The three block patterns, read on the text *)

Lemma http_open_run (line : str) :
  truthy (re_match HTTP_OPEN_RE line)
  = startswith (drop_while isspace line) (lit "http")
    && match drop_while isspace (skipn 4 (drop_while isspace line)) with
       | c :: _ => N.eqb c lbrace
       | [] => false
       end.
Proof.
  unfold re_match, HTTP_OPEN_RE.
  change ([At_beginning; Star CSpace] ++ literal (lit "http") ++ [Star CSpace; One (CChar lbrace)])
    with (At_beginning :: Star CSpace :: literal (lit "http") ++ [Star CSpace; One (CChar lbrace)]).
  change (run (At_beginning :: ?p) ?g 0 ?r) with (run p g 0 r).
  rewrite run_star_space_literal by reflexivity.
  rewrite run_literal.
  destruct (startswith _ _); [|reflexivity].
  rewrite run_star_space_char by reflexivity.
  change (length (lit "http")) with 4. rewrite andb_true_l.
  destruct (drop_while isspace (skipn 4 _)) as [|c r]; [reflexivity|].
  unfold run, in_cset. destruct (N.eqb c lbrace); reflexivity.
Qed.

Lemma http_alone_run (line : str) :
  truthy (re_match HTTP_ALONE_RE line)
  = startswith (drop_while isspace line) (lit "http")
    && blank (skipn 4 (drop_while isspace line)).
Proof.
  unfold re_match, HTTP_ALONE_RE.
  change ([At_beginning; Star CSpace] ++ literal (lit "http") ++ [Star CSpace; At_end])
    with (At_beginning :: Star CSpace :: literal (lit "http") ++ [Star CSpace; At_end]).
  change (run (At_beginning :: ?p) ?g 0 ?r) with (run p g 0 r).
  rewrite run_star_space_literal by reflexivity.
  rewrite run_literal.
  destruct (startswith _ _); [|reflexivity].
  rewrite run_star_space_end.
  change (length (lit "http")) with 4. rewrite andb_true_l.
  destruct (blank _); reflexivity.
Qed.

Lemma brace_run (line : str) :
  truthy (re_match BRACE_RE line)
  = match drop_while isspace line with
    | c :: _ => N.eqb c lbrace
    | [] => false
    end.
Proof.
  unfold re_match, BRACE_RE.
  change (run (At_beginning :: ?p) ?g 0 ?r) with (run p g 0 r).
  rewrite run_star_space_char by reflexivity.
  destruct (drop_while isspace line) as [|c r]; [reflexivity|].
  simpl. destruct (N.eqb c lbrace); reflexivity.
Qed.

Lemma http_open_iff (line : str) :
  truthy (re_match HTTP_OPEN_RE line) = true <-> one_line_open line.
Proof.
  rewrite http_open_run, andb_true_iff. split.
  - intros [H1 H2].
    apply startswith_split in H1. change (length (lit "http")) with 4 in H1.
    destruct (drop_while isspace (skipn 4 (drop_while isspace line)))
      as [|c rest] eqn:E; [discriminate|].
    apply N.eqb_eq in H2; subst c.
    exists (take_while isspace line),
      (take_while isspace (skipn 4 (drop_while isspace line))), rest.
    repeat split; try apply take_while_all.
    rewrite <- E, take_drop_while, <- H1, take_drop_while. reflexivity.
  - intros (ws1 & ws2 & rest & -> & B1 & B2).
    rewrite (drop_while_app isspace ws1 _ B1).
    rewrite (drop_while_stop isspace (lit "http" ++ _)) by reflexivity.
    rewrite startswith_app. split; [reflexivity|].
    change 4 with (length (lit "http")). rewrite skipn_app_exact.
    rewrite (drop_while_app isspace ws2 _ B2). reflexivity.
Qed.

Lemma http_alone_iff (line : str) :
  truthy (re_match HTTP_ALONE_RE line) = true <-> http_alone line.
Proof.
  rewrite http_alone_run, andb_true_iff. split.
  - intros [H1 H2].
    apply startswith_split in H1. change (length (lit "http")) with 4 in H1.
    exists (take_while isspace line), (skipn 4 (drop_while isspace line)).
    repeat split; [|apply take_while_all|exact H2].
    rewrite <- H1, take_drop_while. reflexivity.
  - intros (ws1 & ws2 & -> & B1 & B2).
    rewrite (drop_while_app isspace ws1 _ B1).
    rewrite (drop_while_stop isspace (lit "http" ++ _)) by reflexivity.
    rewrite startswith_app. split; [reflexivity|].
    change 4 with (length (lit "http")). rewrite skipn_app_exact. exact B2.
Qed.

Lemma brace_iff (line : str) :
  truthy (re_match BRACE_RE line) = true <-> brace_first line.
Proof.
  rewrite brace_run. split.
  - destruct (drop_while isspace line) as [|c rest] eqn:E; [discriminate|].
    intros H; apply N.eqb_eq in H; subst c.
    exists (take_while isspace line), rest. split; [|apply take_while_all].
    rewrite <- E, take_drop_while. reflexivity.
  - intros (ws & rest & -> & B).
    rewrite (drop_while_app isspace ws _ B). reflexivity.
Qed.

(** The two opening forms exclude each other. *)
Lemma open_alone_exclusive (line : str) :
  truthy (re_match HTTP_OPEN_RE line) = true ->
  truthy (re_match HTTP_ALONE_RE line) = false.
Proof.
  rewrite http_open_run, http_alone_run, andb_true_iff. intros [-> H].
  rewrite andb_true_l.
  set (s := skipn 4 (drop_while isspace line)) in *.
  destruct (blank s) eqn:B; [|reflexivity].
  rewrite <- (take_drop_while isspace s) in B.
  unfold blank in B. rewrite forallb_app in B. apply andb_true_iff in B as [_ B].
  destruct (drop_while isspace s) as [|c r']; [discriminate H|].
  apply N.eqb_eq in H; subst c. discriminate B.
Qed.

(** ** The block locator *)

Lemma opening_at_unique (lines : list str) (i o1 o2 : nat) :
  opening_at lines i o1 -> opening_at lines i o2 -> o1 = o2.
Proof.
  intros (raw & E1 & H1) (raw' & E2 & H2).
  rewrite E1 in E2; injection E2 as <-.
  destruct H1 as [[A1 ->]|(A1 & -> & _)], H2 as [[A2 ->]|(A2 & -> & _)];
    try reflexivity; exfalso.
  - apply http_open_iff in A1. apply http_alone_iff in A2.
    rewrite (open_alone_exclusive _ A1) in A2. discriminate.
  - apply http_open_iff in A2. apply http_alone_iff in A1.
    rewrite (open_alone_exclusive _ A2) in A1. discriminate.
Qed.

Lemma first_opening_unique (lines : list str) (o1 o2 : nat) :
  first_opening lines o1 -> first_opening lines o2 -> o1 = o2.
Proof.
  intros (i1 & A1 & M1) (i2 & A2 & M2).
  assert (i1 = i2) as <-.
  { destruct (Nat.lt_trichotomy i1 i2) as [L|[E|L]]; [|exact E|].
    - exfalso; exact (M2 _ _ L A1).
    - exfalso; exact (M1 _ _ L A2). }
  exact (opening_at_unique _ _ _ _ A1 A2).
Qed.

Lemma nth_error_middle (A : Type) (pre rest : list A) (x : A) :
  nth_error (pre ++ x :: rest) (length pre) = Some x.
Proof. induction pre; simpl; auto. Qed.

Lemma find_http_open_spec (lines : list str) :
  forall rest pre,
    lines = pre ++ rest ->
    (forall j o', j < length pre -> ~ opening_at lines j o') ->
    match find_http_open lines (length pre) rest with
    | Raise _ => False
    | Ok (Some o) => first_opening lines o
    | Ok None => forall j o', ~ opening_at lines j o'
    end.
Proof.
  induction rest as [|raw rest IH]; intros pre Hl Hpre.
  - simpl. intros j o' H. apply (Hpre j o'); [|exact H].
    destruct H as (r & E & _). rewrite Hl, app_nil_r in E.
    apply nth_error_Some. congruence.
  - assert (Hraw : nth_error lines (length pre) = Some raw)
      by (rewrite Hl; apply nth_error_middle).
    assert (Hrec : (forall o', ~ opening_at lines (length pre) o') ->
                   match find_http_open lines (S (length pre)) rest with
                   | Raise _ => False
                   | Ok (Some o) => first_opening lines o
                   | Ok None => forall j o', ~ opening_at lines j o'
                   end).
    { intros Hno. specialize (IH (pre ++ [raw])).
      rewrite length_app, Nat.add_1_r in IH. apply IH.
      - rewrite <- app_assoc; exact Hl.
      - intros j o' Hj. destruct (Nat.eq_dec j (length pre)) as [->|Hne];
          [apply Hno | apply Hpre; lia]. }
    cbn [find_http_open].
    destruct (truthy (re_match HTTP_OPEN_RE (_strip_comments raw))) eqn:E1.
    { exists (length pre). split; [|exact Hpre].
      exists raw; split; [exact Hraw|]. left; split; [|reflexivity].
      apply http_open_iff; exact E1. }
    assert (N1 : ~ one_line_open (_strip_comments raw))
      by (rewrite <- http_open_iff, E1; discriminate).
    destruct (truthy (re_match HTTP_ALONE_RE (_strip_comments raw))) eqn:E2.
    + destruct (length pre + 1 <? length lines) eqn:E3.
      * apply Nat.ltb_lt in E3. unfold py_index.
        destruct (nth_error lines (length pre + 1)) as [next|] eqn:En;
          [|apply nth_error_None in En; lia].
        cbn [bind].
        destruct (truthy (re_match BRACE_RE (_strip_comments next))) eqn:E4.
        -- exists (length pre). split; [|exact Hpre].
           exists raw; split; [exact Hraw|]. right.
           split; [apply http_alone_iff; exact E2|]. split; [reflexivity|].
           exists next; split; [exact En | apply brace_iff; exact E4].
        -- apply Hrec. intros o' (r & Er & Hr).
           rewrite Hraw in Er; injection Er as <-.
           destruct Hr as [[A _]|(_ & _ & nx & Enx & Bx)]; [exact (N1 A)|].
           rewrite En in Enx; injection Enx as <-.
           apply brace_iff in Bx. congruence.
      * apply Nat.ltb_ge in E3. apply Hrec. intros o' (r & Er & Hr).
        rewrite Hraw in Er; injection Er as <-.
        destruct Hr as [[A _]|(_ & _ & nx & Enx & _)]; [exact (N1 A)|].
        assert (length pre + 1 < length lines)
          by (apply nth_error_Some; congruence).
        lia.
    + apply Hrec. intros o' (r & Er & Hr).
      rewrite Hraw in Er; injection Er as <-.
      destruct Hr as [[A _]|(A & _)]; [exact (N1 A)|].
      apply http_alone_iff in A. congruence.
Qed.

Lemma skipn_nth_error (A : Type) (l : list A) (i : nat) (x : A) :
  nth_error l i = Some x -> skipn i l = x :: skipn (S i) l.
Proof.
  revert i; induction l as [|y l IH]; intros [|i]; simpl; try discriminate.
  - intros E; injection E as ->; reflexivity.
  - intros E. rewrite (IH i E). reflexivity.
Qed.

Lemma depth_at_here (lines : list str) (i : nat) (raw : str) :
  nth_error lines i = Some raw -> depth_at lines i i = brace_delta raw.
Proof.
  intros E. unfold depth_at. replace (S i - i) with 1 by lia.
  rewrite (skipn_nth_error _ lines i raw E). simpl. lia.
Qed.

Lemma depth_at_step (lines : list str) (i e : nat) (raw : str) :
  nth_error lines i = Some raw -> i < e ->
  depth_at lines i e = (brace_delta raw + depth_at lines (S i) e)%Z.
Proof.
  intros E L. unfold depth_at.
  replace (S e - i) with (S (S e - S i)) by lia.
  rewrite (skipn_nth_error _ lines i raw E). reflexivity.
Qed.

Lemma scan_depth_spec (lines : list str) (o : nat) :
  forall n i d,
    i + n = length lines -> o <= i ->
    match scan_depth lines o d (seq i n) with
    | Raise _ => False
    | Ok (Some b) =>
        start_line_index b = o
        /\ i <= end_line_index b < length lines
        /\ o < end_line_index b
        /\ (d + depth_at lines i (end_line_index b) = 0)%Z
        /\ forall e, i <= e < end_line_index b -> o < e ->
                     (d + depth_at lines i e <> 0)%Z
    | Ok None =>
        forall e, i <= e < length lines -> o < e ->
                  (d + depth_at lines i e <> 0)%Z
    end.
Proof.
  induction n as [|n IH]; intros i d Hn Ho.
  - simpl. intros e He; lia.
  - cbn [seq scan_depth]. unfold py_index.
    destruct (nth_error lines i) as [raw|] eqn:E;
      [|apply nth_error_None in E; lia].
    cbn [bind].
    destruct (((d + _count_char (_strip_comments raw) lbrace
                - _count_char (_strip_comments raw) rbrace =? 0)%Z
               && (o <? i))) eqn:T.
    + apply andb_true_iff in T as [T1 T2].
      apply Z.eqb_eq in T1. apply Nat.ltb_lt in T2.
      cbn [start_line_index end_line_index].
      rewrite (depth_at_here lines i raw E). unfold brace_delta, _count_char in *.
      repeat split; try lia.
    + specialize (IH (S i)
        (d + _count_char (_strip_comments raw) lbrace
         - _count_char (_strip_comments raw) rbrace)%Z ltac:(lia) ltac:(lia)).
      assert (Hi : o < i -> (d + depth_at lines i i <> 0)%Z).
      { intros L. rewrite (depth_at_here lines i raw E). unfold brace_delta, _count_char in *.
        apply andb_false_iff in T as [T|T].
        - apply Z.eqb_neq in T; lia.
        - apply Nat.ltb_ge in T; lia. }
      destruct (scan_depth lines o _ (seq (S i) n)) as [[b|]|]; [| |exact IH].
      * destruct IH as (H1 & H2 & H3 & H4 & H5).
        split; [exact H1|]. split; [lia|]. split; [exact H3|]. split.
        -- rewrite (depth_at_step lines i _ raw E) by lia.
           unfold brace_delta, _count_char in *. lia.
        -- intros e He Hoe. destruct (Nat.eq_dec e i) as [->|Hne]; [auto|].
           rewrite (depth_at_step lines i _ raw E) by lia.
           specialize (H5 e ltac:(lia) Hoe). unfold brace_delta, _count_char in *. lia.
      * intros e He Hoe. destruct (Nat.eq_dec e i) as [->|Hne]; [auto|].
        rewrite (depth_at_step lines i _ raw E) by lia.
        specialize (IH e ltac:(lia) Hoe). unfold brace_delta, _count_char in *. lia.
Qed.

Lemma first_opening_in_range (lines : list str) (o : nat) :
  first_opening lines o -> o < length lines.
Proof.
  intros (i & (raw & E & [[_ ->]|(_ & -> & next & En & _)]) & _);
    apply nth_error_Some; congruence.
Qed.

Lemma find_http_block_cases (lines : list str) :
  match find_http_block lines with
  | Raise _ => False
  | Ok (Some b) => located lines b
  | Ok None => no_block lines
  end.
Proof.
  unfold find_http_block.
  pose proof (find_http_open_spec lines lines [] eq_refl) as H.
  cbn [length] in H. specialize (H ltac:(intros j o' Hj; inversion Hj)).
  destruct (find_http_open lines 0 lines) as [[o|]|]; [| |exact H]; cbn [bind].
  - pose proof (first_opening_in_range lines o H) as Ho.
    pose proof (scan_depth_spec lines o (length lines - o) o 0%Z
                  ltac:(lia) ltac:(lia)) as S.
    unfold py_range.
    destruct (scan_depth lines o 0 (seq o (length lines - o))) as [[b|]|];
      [| |exact S].
    + destruct S as (H1 & H2 & H3 & H4 & H5). unfold located.
      rewrite H1. split; [exact H|]. split; [lia|]. split; [lia|].
      intros e He. specialize (H5 e ltac:(lia) ltac:(lia)). lia.
    + right. exists o. split; [exact H|].
      intros e He. specialize (S e ltac:(lia) ltac:(lia)). lia.
  - left. exact H.
Qed.

Lemma located_unique (lines : list str) (b1 b2 : HttpBlock) :
  located lines b1 -> located lines b2 -> b1 = b2.
Proof.
  intros (F1 & R1 & Z1 & N1) (F2 & R2 & Z2 & N2).
  pose proof (first_opening_unique lines _ _ F1 F2) as Es.
  destruct b1 as [s1 e1], b2 as [s2 e2]; cbn in *. subst s2.
  destruct (Nat.lt_trichotomy e1 e2) as [L|[->|L]]; [|reflexivity|]; exfalso.
  - exact (N2 e1 ltac:(lia) Z1).
  - exact (N1 e2 ltac:(lia) Z2).
Qed.

Lemma located_not_no_block (lines : list str) (b : HttpBlock) :
  located lines b -> no_block lines -> False.
Proof.
  intros (F & R & Z & _) [H|(o & F' & H)].
  - destruct F as (i & A & _). exact (H _ _ A).
  - rewrite (first_opening_unique lines _ _ F' F) in H.
    exact (H _ R Z).
Qed.

(** C1: the locator scans from the top for the first line that, stripped of
    its comment, is [http {] or is [http] alone with the next line starting
    with [{]; the opening line is the line that carries that [{]. From it
    the depth ([{] minus [}] of each stripped line) is summed, and the span
    returned ends at the first line strictly after the opening line where
    the sum is exactly 0. With no opening line, or no such later line, the
    result is [None]; no input makes the locator raise. *)
Theorem find_http_block_locates (lines : list str) :
  (forall b, find_http_block lines = Ok (Some b) <-> located lines b)
  /\ (find_http_block lines = Ok None <-> no_block lines)
  /\ (forall e, find_http_block lines <> Raise e).
Proof.
  pose proof (find_http_block_cases lines) as H.
  destruct (find_http_block lines) as [[b0|]|e0]; [| |destruct H].
  - split; [|split].
    + intros b; split.
      * intros E; injection E as <-; exact H.
      * intros L. rewrite (located_unique lines _ _ H L). reflexivity.
    + split; [discriminate|]. intros N.
      destruct (located_not_no_block lines b0 H N).
    + discriminate.
  - split; [|split].
    + intros b; split; [discriminate|]. intros L.
      destruct (located_not_no_block lines b L H).
    + split; [intros _; exact H | reflexivity].
    + discriminate.
Qed.

Lemma find_http_block_locates_witness :
  find_http_block nested_lines = Ok (Some (mkHttpBlock 0 5))
  /\ located nested_lines (mkHttpBlock 0 5)
  /\ map (depth_at nested_lines 0) [0; 1; 2; 3; 4; 5] = [1; 2; 2; 1; 1; 0]%Z
  /\ find_http_block (firstn 5 nested_lines) = Ok None
  /\ no_block (firstn 5 nested_lines).
Proof.
  pose proof (find_http_block_locates nested_lines) as (H1 & _ & _).
  pose proof (find_http_block_locates (firstn 5 nested_lines)) as (_ & H2 & _).
  assert (F : find_http_block nested_lines = Ok (Some (mkHttpBlock 0 5)))
    by (vm_compute; reflexivity).
  assert (N : find_http_block (firstn 5 nested_lines) = Ok None)
    by (vm_compute; reflexivity).
  split; [exact F|]. split; [exact (proj1 (H1 _) F)|].
  split; [vm_compute; reflexivity|].
  split; [exact N | exact (proj1 H2 N)].
Defined.

(** C3, as the code has it: a returned block has its start no later than
    its end, depth exactly 0 at the end line, and a depth other than 0 at
    every line strictly between the two. *)
Theorem http_block_invariant (lines : list str) (b : HttpBlock) :
  find_http_block lines = Ok (Some b) ->
  start_line_index b <= end_line_index b
  /\ depth_at lines (start_line_index b) (end_line_index b) = 0%Z
  /\ forall e, start_line_index b < e < end_line_index b ->
               depth_at lines (start_line_index b) e <> 0%Z.
Proof.
  intros E. pose proof (find_http_block_cases lines) as H.
  rewrite E in H. destruct H as (_ & R & Z & N).
  repeat split; try lia; assumption.
Qed.

Lemma http_block_invariant_witness :
  2 <= 4
  /\ depth_at (splitlines conf_two_line) 2 4 = 0%Z
  /\ forall e, 2 < e < 4 -> depth_at (splitlines conf_two_line) 2 e <> 0%Z.
Proof.
  apply (http_block_invariant (splitlines conf_two_line) (mkHttpBlock 2 4)).
  vm_compute. reflexivity.
Defined.

(** C3, as the specification words it, fails where closing braces outnumber
    the opening ones: the depth on the line before the end line is -1, not
    positive. *)
Lemma http_block_invariant_spec_fails :
  exists lines b,
    find_http_block lines = Ok (Some b)
    /\ depth_at lines (start_line_index b) (end_line_index b - 1) = (-1)%Z
    /\ ~ spec_block_invariant lines b.
Proof.
  exists (splitlines conf_stray_brace), (mkHttpBlock 0 2). split; [|split].
  - vm_compute. reflexivity.
  - vm_compute. reflexivity.
  - intros (_ & _ & H). specialize (H 1 ltac:(cbn; lia)).
    vm_compute in H. discriminate H.
Qed.


(** ** The include pattern, read on the text *)

Lemma space_not_semicolon (c : char) : isspace c = true -> not_semicolon c = true.
Proof.
  intros H. unfold not_semicolon.
  rewrite (space_not_char c semicolon eq_refl H). reflexivity.
Qed.

Lemma blank_not_semicolon (w : str) : blank w = true -> forallb not_semicolon w = true.
Proof.
  induction w as [|c w IH]; simpl; [reflexivity|].
  intros H; apply andb_true_iff in H as [H1 H2].
  rewrite (space_not_semicolon c H1). exact (IH H2).
Qed.

Lemma semicolon_head_stop (t : str) :
  match t with [] => True | c :: _ => not_semicolon c = false end ->
  drop_while isspace t = t.
Proof.
  destruct t as [|c t]; [reflexivity|]. intros H. simpl.
  destruct (isspace c) eqn:E; [|reflexivity].
  rewrite (space_not_semicolon c E) in H. discriminate.
Qed.

Lemma tail_ok_after (u t : str) :
  forallb not_semicolon u = true ->
  match t with [] => True | c :: _ => not_semicolon c = false end ->
  tail_ok (drop_while isspace (u ++ t)) = blank u && tail_ok t.
Proof.
  intros Hu Ht. induction u as [|x u IH]; simpl.
  - rewrite (semicolon_head_stop t Ht). reflexivity.
  - simpl in Hu. apply andb_true_iff in Hu as [Hx Hu].
    destruct (isspace x); simpl; [exact (IH Hu)|].
    unfold not_semicolon in Hx. destruct (N.eqb x semicolon); [discriminate|].
    reflexivity.
Qed.

Lemma include_tail_run (g : marks) (pos : nat) (rest : str) :
  run INCLUDE_TAIL g pos rest
  = if tail_ok (drop_while isspace rest) then Some g else None.
Proof.
  unfold INCLUDE_TAIL. rewrite run_star_space_char by reflexivity.
  destruct (drop_while isspace rest) as [|c tail]; [reflexivity|].
  cbn [run tail_ok in_cset]. destruct (N.eqb c semicolon); [|reflexivity].
  rewrite andb_true_l.
  exact (run_star_space_end g _ tail).
Qed.

Lemma greedy_argument (a b : option nat) (u t : str) :
  forallb not_semicolon u = true ->
  match t with [] => True | c :: _ => not_semicolon c = false end ->
  forall pos,
    greedy (CNot semicolon) (run (Mark_close :: INCLUDE_TAIL) (a, b)) pos (u ++ t)
    = if tail_ok t then Some (a, Some (pos + length u)) else None.
Proof.
  intros Hu Ht. induction u as [|x u IH]; intros pos.
  - cbn [app length]. rewrite Nat.add_0_r.
    assert (K : run (Mark_close :: INCLUDE_TAIL) (a, b) pos t
                = if tail_ok t then Some (a, Some pos) else None).
    { cbn [run fst]. rewrite include_tail_run, (semicolon_head_stop t Ht).
      reflexivity. }
    destruct t as [|c t]; [exact K|].
    cbn [greedy in_cset]. fold (not_semicolon c). rewrite Ht. exact K.
  - simpl in Hu. apply andb_true_iff in Hu as [Hx Hu].
    cbn [app greedy in_cset length]. fold (not_semicolon x). rewrite Hx.
    rewrite (IH Hu). rewrite Nat.add_succ_r. 
    destruct (tail_ok t) eqn:T; [reflexivity|].
    cbn [run fst]. rewrite include_tail_run.
    change (x :: u ++ t) with ((x :: u) ++ t).
    rewrite tail_ok_after; [|simpl; rewrite Hx; exact Hu|exact Ht].
    rewrite T, andb_false_r. reflexivity.
Qed.

Lemma capture_run (g : marks) (u t : str) (pos : nat) :
  forallb not_semicolon u = true ->
  match t with [] => True | c :: _ => not_semicolon c = false end ->
  run (Mark_open :: Plus (CNot semicolon) :: Mark_close :: INCLUDE_TAIL)
    g pos (u ++ t)
  = match u with
    | [] => None
    | _ :: _ => if tail_ok t then Some (Some pos, Some (pos + length u))
                else None
    end.
Proof.
  intros Hu Ht. cbn [run].
  destruct u as [|x u].
  - destruct t as [|c t]; [reflexivity|].
    cbn [app in_cset]. fold (not_semicolon c). rewrite Ht. reflexivity.
  - simpl in Hu. apply andb_true_iff in Hu as [Hx Hu].
    cbn [app in_cset]. fold (not_semicolon x). rewrite Hx.
    change (greedy (CNot semicolon)
              (run (Mark_close :: INCLUDE_TAIL) (Some pos, snd g)) (S pos) (u ++ t)
            = if tail_ok t then Some (Some pos, Some (pos + length (x :: u)))
              else None).
    rewrite (greedy_argument (Some pos) (snd g) u t Hu Ht).
    cbn [length]. rewrite Nat.add_succ_r. reflexivity.
Qed.

Lemma greedy_stop (cs : cset) (k : nat -> str -> option marks) (pos : nat) (rest : str) :
  match rest with [] => True | c :: _ => in_cset cs c = false end ->
  greedy cs k pos rest = k pos rest.
Proof. destruct rest as [|c r]; [reflexivity|]. simpl. intros ->. reflexivity. Qed.

Lemma greedy_spaces (g : marks) (w g0 t : str) :
  blank w = true ->
  forallb not_semicolon g0 = true ->
  match g0 with [] => True | c :: _ => isspace c = false end ->
  match t with [] => True | c :: _ => not_semicolon c = false end ->
  forall pos,
    greedy CSpace
      (run (Mark_open :: Plus (CNot semicolon) :: Mark_close :: INCLUDE_TAIL) g)
      pos (w ++ g0 ++ t)
    = if tail_ok t then
        match g0 with
        | _ :: _ => Some (Some (pos + length w), Some (pos + length w + length g0))
        | [] =>
            match w with
            | [] => None
            | _ :: _ => Some (Some (pos + length w - 1), Some (pos + length w))
            end
        end
      else None.
Proof.
  intros Hw Hg Hg0 Ht. induction w as [|x w IH]; intros pos.
  - cbn [app length]. rewrite Nat.add_0_r.
    rewrite greedy_stop.
    + rewrite (capture_run g g0 t pos Hg Ht).
      destruct g0; destruct (tail_ok t); reflexivity.
    + destruct g0 as [|c g0]; [|exact Hg0].
      destruct t as [|c t]; [exact I|]. simpl.
      destruct (isspace c) eqn:E; [|reflexivity].
      rewrite (space_not_semicolon c E) in Ht. discriminate.
  - simpl in Hw. apply andb_true_iff in Hw as [Hx Hw].
    cbn [app greedy in_cset]. rewrite Hx, (IH Hw).
    destruct (tail_ok t) eqn:T.
    + destruct g0 as [|c g0].
      * destruct w as [|y w].
        -- change (x :: [] ++ [] ++ t) with ([x] ++ t).
           rewrite capture_run;
             [|simpl; rewrite (space_not_semicolon x Hx); reflexivity|exact Ht].
           rewrite T. cbn [length]. do 2 f_equal; f_equal; lia.
        -- cbn [length]. do 2 f_equal; f_equal; lia.
      * cbn [length]. do 2 f_equal; f_equal; lia.
    + change (x :: w ++ g0 ++ t) with ((x :: w) ++ g0 ++ t).
      rewrite app_assoc. rewrite capture_run; [|..|exact Ht].
      * rewrite T. reflexivity.
      * rewrite forallb_app. apply andb_true_iff. split; [|exact Hg].
        apply blank_not_semicolon. simpl. rewrite Hx. exact Hw.
Qed.

Lemma group1_at (pre mid post : str) (a b : nat) :
  a = length pre -> b = a + length mid ->
  group1 (pre ++ mid ++ post) (Some a, Some b) = mid.
Proof.
  intros -> ->. unfold group1.
  rewrite skipn_app_exact. replace (length pre + length mid - length pre)
    with (length mid) by lia.
  apply firstn_app_exact.
Qed.

Lemma include_re_on_parts (w0 w g0 t : str) :
  blank w0 = true -> blank w = true ->
  forallb not_semicolon g0 = true ->
  match g0 with [] => True | c :: _ => isspace c = false end ->
  match t with [] => True | c :: _ => not_semicolon c = false end ->
  option_map (group1 (w0 ++ lit "include" ++ w ++ g0 ++ t))
    (re_match INCLUDE_RE (w0 ++ lit "include" ++ w ++ g0 ++ t))
  = if tail_ok t then
      match g0 with
      | _ :: _ => match w with [] => None | _ :: _ => Some g0 end
      | [] => match w with _ :: _ :: _ => Some [last w 0%N] | _ => None end
      end
    else None.
Proof.
  intros Hw0 Hw Hg Hg0 Ht.
  unfold re_match, INCLUDE_RE.
  change ([At_beginning; Star CSpace] ++ literal (lit "include") ++ ?q)
    with (At_beginning :: Star CSpace :: literal (lit "include")
          ++ Plus CSpace :: Mark_open :: Plus (CNot semicolon) :: Mark_close
             :: INCLUDE_TAIL).
  change (run (At_beginning :: ?p) ?g 0 ?r) with (run p g 0 r).
  rewrite run_star_space_literal by reflexivity.
  rewrite (take_while_app isspace w0 _ Hw0), (drop_while_app isspace w0 _ Hw0).
  rewrite (take_while_stop isspace (lit "include" ++ _)) by reflexivity.
  rewrite (drop_while_stop isspace (lit "include" ++ _)) by reflexivity.
  rewrite run_literal, startswith_app, skipn_app_exact, app_nil_r.
  set (pos := 0 + length w0 + length (lit "include")).
  destruct w as [|x w].
  - cbn [app]. 
    assert (N : run (Plus CSpace :: Mark_open :: Plus (CNot semicolon)
                     :: Mark_close :: INCLUDE_TAIL) (None, None) pos (g0 ++ t)
                = None).
    { cbn [run]. destruct g0 as [|c g0].
      - destruct t as [|c t]; [reflexivity|]. cbn [app in_cset].
        destruct (isspace c) eqn:E; [|reflexivity].
        rewrite (space_not_semicolon c E) in Ht. discriminate.
      - cbn [app in_cset]. rewrite Hg0. reflexivity. }
    rewrite N. destruct (tail_ok t), g0; reflexivity.
  - simpl in Hw. apply andb_true_iff in Hw as [Hx Hw].
    cbn [app]. 
    change (run (Plus CSpace :: ?q) ?g pos (x :: ?r))
      with (if in_cset CSpace x then greedy CSpace (run q g) (S pos) r else None).
    cbn [in_cset]. rewrite Hx.
    rewrite (greedy_spaces (None, None) w g0 t Hw Hg Hg0 Ht).
    destruct (tail_ok t); [|reflexivity].
    destruct g0 as [|c g0].
    + destruct w as [|y w]; [reflexivity|]. cbn [option_map]. f_equal.
      destruct (@exists_last _ (y :: w) ltac:(discriminate)) as (w' & z & E).
      change (last (x :: y :: w) 0%N) with (last (y :: w) 0%N).
      rewrite E, last_last.
      change (x :: (w' ++ [z]) ++ [] ++ t) with ((x :: w' ++ [z]) ++ t).
      replace (w0 ++ lit "include" ++ (x :: w' ++ [z]) ++ t)
        with ((w0 ++ lit "include" ++ x :: w') ++ [z] ++ t)
        by (rewrite <- !app_assoc; cbn [app]; rewrite <- !app_assoc; reflexivity).
      apply group1_at; unfold pos; rewrite ?length_app; cbn [length];
        rewrite ?length_app; cbn [length]; lia.
    + cbn [option_map]. f_equal.
      replace (w0 ++ lit "include" ++ x :: w ++ (c :: g0) ++ t)
        with ((w0 ++ lit "include" ++ x :: w) ++ (c :: g0) ++ t)
        by (rewrite <- !app_assoc; reflexivity).
      apply group1_at; unfold pos; rewrite ?length_app; cbn [length];
        rewrite ?length_app; cbn [length]; lia.
Qed.

Lemma include_re_capture (cleaned : str) :
  option_map (group1 cleaned) (re_match INCLUDE_RE cleaned)
  = include_capture cleaned.
Proof.
  unfold include_capture.
  destruct (startswith (drop_while isspace cleaned) (lit "include")) eqn:ES.
  - pose proof (startswith_split _ _ ES) as E1.
    change (length (lit "include")) with 7 in E1.
    set (r := skipn 7 (drop_while isspace cleaned)) in *.
    assert (E : cleaned
                = take_while isspace cleaned ++ lit "include"
                  ++ take_while isspace r
                  ++ take_while not_semicolon (drop_while isspace r)
                  ++ drop_while not_semicolon (drop_while isspace r)).
    { rewrite (take_drop_while not_semicolon), (take_drop_while isspace r).
      rewrite <- E1, take_drop_while. reflexivity. }
    rewrite E at 1 2. apply include_re_on_parts.
    + apply take_while_all.
    + apply take_while_all.
    + apply take_while_all.
    + pose proof (drop_while_head isspace r) as H.
      destruct (drop_while isspace r) as [|c r']; [exact I|]. simpl.
      destruct (not_semicolon c); [exact H | exact I].
    + apply drop_while_head.
  - unfold re_match, INCLUDE_RE.
    change ([At_beginning; Star CSpace] ++ literal (lit "include") ++ ?q)
      with (At_beginning :: Star CSpace :: literal (lit "include") ++ q).
    change (run (At_beginning :: ?p) ?g 0 ?r) with (run p g 0 r).
    rewrite run_star_space_literal by reflexivity.
    rewrite run_literal, ES. reflexivity.
Qed.

Lemma parse_include_path_capture (line : str) :
  _parse_include_path line
  = option_map _unquote
      (include_capture (py_rstrip_char LF (_strip_comments line))).
Proof.
  unfold _parse_include_path. rewrite <- include_re_capture.
  destruct (re_match INCLUDE_RE _); reflexivity.
Qed.

(** ** Stripping at the right end *)

Lemma forallb_rev (p : char -> bool) (s : str) :
  forallb p (rev s) = forallb p s.
Proof.
  induction s as [|c s IH]; simpl; [reflexivity|].
  rewrite forallb_app, IH. simpl. rewrite andb_true_r. apply andb_comm.
Qed.

Lemma rstrip_parts (p : char -> bool) (s : str) :
  s = py_rstrip_with p s ++ rev (take_while p (rev s))
  /\ forallb p (rev (take_while p (rev s))) = true.
Proof.
  split.
  - unfold py_rstrip_with. rewrite <- rev_app_distr, take_drop_while.
    symmetry; apply rev_involutive.
  - rewrite forallb_rev. apply take_while_all.
Qed.

Lemma rstrip_app_blank (p : char -> bool) (s w : str) :
  forallb p w = true -> py_rstrip_with p (s ++ w) = py_rstrip_with p s.
Proof.
  intros H. unfold py_rstrip_with. rewrite rev_app_distr.
  rewrite drop_while_app; [reflexivity|]. rewrite forallb_rev; exact H.
Qed.

Lemma rstrip_clean (p : char -> bool) (s : str) :
  match rev s with [] => True | c :: _ => p c = false end ->
  py_rstrip_with p s = s.
Proof.
  intros H. unfold py_rstrip_with. rewrite (drop_while_stop p (rev s) H).
  apply rev_involutive.
Qed.

Lemma rstrip_is_clean (p : char -> bool) (s : str) :
  match rev (py_rstrip_with p s) with [] => True | c :: _ => p c = false end.
Proof.
  unfold py_rstrip_with. rewrite rev_involutive. apply drop_while_head.
Qed.

Lemma rstrip_after (p : char -> bool) (x y : str) (c : char) :
  p c = false ->
  py_rstrip_with p (x ++ c :: y) = x ++ c :: py_rstrip_with p y.
Proof.
  intros Hc. destruct (rstrip_parts p y) as [E B].
  rewrite E at 1.
  change (x ++ c :: py_rstrip_with p y ++ rev (take_while p (rev y)))
    with (x ++ (c :: py_rstrip_with p y) ++ rev (take_while p (rev y))).
  rewrite app_assoc, (rstrip_app_blank p _ _ B).
  apply rstrip_clean. rewrite rev_app_distr. cbn [rev].
  pose proof (rstrip_is_clean p y) as H.
  destruct (rev (py_rstrip_with p y)) as [|z r]; [exact Hc | exact H].
Qed.

Lemma blank_app (a b : str) : blank (a ++ b) = blank a && blank b.
Proof. apply forallb_app. Qed.

Lemma linefeeds_blank (s : str) : forallb (N.eqb LF) s = true -> blank s = true.
Proof.
  induction s as [|c s IH]; [reflexivity|]. cbn [forallb].
  intros H; apply andb_true_iff in H as [H1 H2].
  apply N.eqb_eq in H1; subst c. exact (IH H2).
Qed.

(** ** The include parser *)

Lemma include_capture_shape (cleaned g : str) :
  include_capture cleaned = Some g ->
  exists a tail,
    cleaned = a ++ semicolon :: tail
    /\ forallb not_semicolon a = true /\ blank tail = true.
Proof.
  unfold include_capture.
  destruct (startswith (drop_while isspace cleaned) (lit "include")) eqn:ES;
    [|discriminate].
  pose proof (startswith_split _ _ ES) as E1.
  change (length (lit "include")) with 7 in E1.
  set (r := skipn 7 (drop_while isspace cleaned)) in *.
  destruct (drop_while not_semicolon (drop_while isspace r)) as [|c tail] eqn:Et;
    [discriminate|].
  cbn [tail_ok]. destruct (N.eqb c semicolon) eqn:Ec; [|discriminate].
  apply N.eqb_eq in Ec; subst c.
  destruct (blank tail) eqn:Bt; [|discriminate]. intros _.
  exists (take_while isspace cleaned ++ lit "include" ++ take_while isspace r
          ++ take_while not_semicolon (drop_while isspace r)), tail.
  split; [|split; [|exact Bt]].
  - rewrite <- !app_assoc, <- Et.
    rewrite (take_drop_while not_semicolon), (take_drop_while isspace r).
    rewrite <- E1, take_drop_while. reflexivity.
  - rewrite !forallb_app.
    rewrite (blank_not_semicolon _ (take_while_all isspace cleaned)).
    rewrite (blank_not_semicolon _ (take_while_all isspace r)).
    rewrite take_while_all. reflexivity.
Qed.

Lemma first_semicolon_suffix (a' t1 a b : str) :
  forallb not_semicolon a' = true ->
  a' ++ semicolon :: t1 = a ++ semicolon :: b ->
  exists m, t1 = m ++ b.
Proof.
  revert a; induction a' as [|x a' IH]; intros a Hn E.
  - destruct a as [|y a]; simpl in E.
    + injection E as ->. exists []; reflexivity.
    + injection E as _ ->. exists (a ++ [semicolon]).
      rewrite <- app_assoc; reflexivity.
  - simpl in Hn. apply andb_true_iff in Hn as [Hx Hn].
    destruct a as [|y a]; simpl in E.
    + injection E as -> _. discriminate Hx.
    + injection E as _ E. exact (IH a Hn E).
Qed.

(** C10: the include pattern is anchored at both ends of the line. When the
    comment-stripped line holds a [;] with anything but white space after
    it, a second directive or trailing text, the parser returns no path;
    when it returns a path, the first [;] of the stripped line is followed
    by white space only, so one line yields at most one include. *)
Theorem include_pattern_anchored (line : str) :
  (forall a b,
      _strip_comments line = a ++ semicolon :: b -> blank b = false ->
      _parse_include_path line = None)
  /\ (forall p,
        _parse_include_path line = Some p ->
        exists a t,
          _strip_comments line = a ++ semicolon :: t
          /\ ~ In semicolon a /\ blank t = true).
Proof.
  assert (S : forall p, _parse_include_path line = Some p ->
              exists a t, _strip_comments line = a ++ semicolon :: t
                          /\ forallb not_semicolon a = true /\ blank t = true).
  { intros p. rewrite parse_include_path_capture.
    destruct (include_capture _) as [g|] eqn:E; [|discriminate]. intros _.
    destruct (include_capture_shape _ _ E) as (a & tail & Ec & Ha & Ht).
    destruct (rstrip_parts (N.eqb LF) (_strip_comments line)) as [Ep Bp].
    fold (py_rstrip_char LF (_strip_comments line)) in Ep.
    exists a, (tail ++ rev (take_while (N.eqb LF) (rev (_strip_comments line)))).
    split; [|split; [exact Ha|]].
    - rewrite Ep at 1. rewrite Ec, <- app_assoc. reflexivity.
    - rewrite blank_app, Ht. exact (linefeeds_blank _ Bp). }
  split.
  - intros a b E B. destruct (_parse_include_path line) as [p|] eqn:P;
      [|reflexivity].
    destruct (S p eq_refl) as (a' & t & E' & Ha' & Ht).
    rewrite E' in E. destruct (first_semicolon_suffix a' t a b Ha' E) as [m ->].
    rewrite blank_app, B, andb_false_r in Ht. discriminate.
  - intros p P. destruct (S p P) as (a & t & E & Ha & Ht).
    exists a, t. split; [exact E|]. split; [|exact Ht].
    intros Hin. rewrite forallb_forall in Ha. specialize (Ha _ Hin).
    discriminate Ha.
Qed.

Lemma include_pattern_anchored_witness :
  _parse_include_path (lit "include a/*.conf; include b/*.conf;") = None.
Proof.
  apply (proj1 (include_pattern_anchored
                  (lit "include a/*.conf; include b/*.conf;"))
           (lit "include a/*.conf") (lit " include b/*.conf;"));
    vm_compute; reflexivity.
Defined.

Lemma parse_include_path_cut (pre post : str) :
  _parse_include_path (pre ++ hash :: post) = _parse_include_path pre.
Proof. unfold _parse_include_path. rewrite strip_comments_cut. reflexivity. Qed.

Lemma include_capture_blank (s : str) :
  blank s = true -> include_capture s = None.
Proof.
  intros B. unfold include_capture.
  pose proof (drop_while_app isspace s [] B) as E. rewrite app_nil_r in E.
  rewrite E. reflexivity.
Qed.

Lemma strip_comments_prefix (line : str) :
  exists post, line = _strip_comments line ++ post.
Proof.
  destruct (split_once_parts hash line) as [_ H].
  eexists; exact H.
Qed.

Lemma parse_include_path_blank (pre : str) :
  blank pre = true -> _parse_include_path pre = None.
Proof.
  intros B. rewrite parse_include_path_capture.
  rewrite include_capture_blank; [reflexivity|].
  destruct (strip_comments_prefix pre) as [post E].
  destruct (rstrip_parts (N.eqb LF) (_strip_comments pre)) as [Ep _].
  fold (py_rstrip_char LF (_strip_comments pre)) in Ep.
  rewrite Ep in E. rewrite E in B.
  rewrite <- !app_assoc in B. rewrite !blank_app in B.
  apply andb_true_iff in B as [B _]. exact B.
Qed.

Lemma scan_includes_existsb (tgts : list str) (span : list str) :
  scan_includes tgts span
  = existsb (fun raw => include_hit tgts (_parse_include_path raw)) span.
Proof.
  induction span as [|raw span IH]; simpl; [reflexivity|].
  rewrite IH. destruct (include_hit tgts (_parse_include_path raw)); reflexivity.
Qed.

(** C9: a [#] hides the rest of its line from the include parser. The path
    extracted from [pre # post] is the one [pre] alone gives; so when the
    include directive stands after the [#], [pre] being white space or any
    text that is no include directive itself, no path is extracted and the
    line adds nothing to the scan of the block. *)
Theorem commented_include_not_matched (pre post : str) :
  _parse_include_path (pre ++ hash :: post) = _parse_include_path pre
  /\ (blank pre = true -> _parse_include_path (pre ++ hash :: post) = None)
  /\ (_parse_include_path pre = None ->
      _parse_include_path (pre ++ hash :: post) = None
      /\ forall tgts before after,
           scan_includes tgts (before ++ (pre ++ hash :: post) :: after)
           = scan_includes tgts (before ++ after)).
Proof.
  rewrite parse_include_path_cut. split; [reflexivity|]. split.
  - apply parse_include_path_blank.
  - intros E. split; [exact E|]. intros tgts before after.
    rewrite !scan_includes_existsb, !existsb_app. cbn [existsb].
    rewrite parse_include_path_cut, E. reflexivity.
Qed.

Lemma commented_include_not_matched_witness :
  _parse_include_path (lit "    # include conf.d/*.conf;" ++ [LF]) = None
  /\ scan_includes (targets (lit "/etc/nginx/conf.d"))
       [lit "http {" ++ [LF];
        lit "    # include conf.d/*.conf;" ++ [LF];
        lit "}" ++ [LF]]
     = scan_includes (targets (lit "/etc/nginx/conf.d"))
         [lit "http {" ++ [LF]; lit "}" ++ [LF]].
Proof.
  destruct (commented_include_not_matched (lit "    ")
              (lit " include conf.d/*.conf;" ++ [LF])) as (_ & H1 & H2).
  split.
  - exact (H1 eq_refl).
  - exact (proj2 (H2 eq_refl) (targets (lit "/etc/nginx/conf.d"))
             [lit "http {" ++ [LF]] [lit "}" ++ [LF]]).
Defined.

(** ** The include directive, read on the text *)

Lemma include_capture_on_parts (w0 w g0 t : str) :
  blank w0 = true -> blank w = true ->
  forallb not_semicolon g0 = true ->
  match g0 with [] => True | c :: _ => isspace c = false end ->
  match t with [] => True | c :: _ => not_semicolon c = false end ->
  include_capture (w0 ++ lit "include" ++ w ++ g0 ++ t)
  = if tail_ok t then
      match g0 with
      | _ :: _ => match w with [] => None | _ :: _ => Some g0 end
      | [] => match w with _ :: _ :: _ => Some [last w 0%N] | _ => None end
      end
    else None.
Proof.
  intros. rewrite <- include_re_capture. apply include_re_on_parts; assumption.
Qed.

Lemma include_capture_parts (cleaned g : str) :
  include_capture cleaned = Some g ->
  exists w0 w1 w3,
    cleaned = w0 ++ lit "include" ++ w1 ++ g ++ semicolon :: w3
    /\ blank w0 = true /\ w1 <> [] /\ blank w1 = true
    /\ g <> [] /\ forallb not_semicolon g = true /\ blank w3 = true.
Proof.
  unfold include_capture.
  destruct (startswith (drop_while isspace cleaned) (lit "include")) eqn:ES;
    [|discriminate].
  pose proof (startswith_split _ _ ES) as E1.
  change (length (lit "include")) with 7 in E1.
  set (r := skipn 7 (drop_while isspace cleaned)) in *.
  assert (E : cleaned
              = take_while isspace cleaned ++ lit "include"
                ++ take_while isspace r
                ++ take_while not_semicolon (drop_while isspace r)
                ++ drop_while not_semicolon (drop_while isspace r)).
  { rewrite (take_drop_while not_semicolon), (take_drop_while isspace r).
    rewrite <- E1, take_drop_while. reflexivity. }
  pose proof (take_while_all isspace cleaned) as B0.
  pose proof (take_while_all isspace r) as Bw.
  pose proof (take_while_all not_semicolon (drop_while isspace r)) as Bg.
  set (w0 := take_while isspace cleaned) in *.
  set (w := take_while isspace r) in *.
  set (g0 := take_while not_semicolon (drop_while isspace r)) in *.
  destruct (drop_while not_semicolon (drop_while isspace r)) as [|c tail];
    [discriminate|].
  cbn [tail_ok]. destruct (N.eqb c semicolon) eqn:Ec; [|discriminate].
  apply N.eqb_eq in Ec; subst c.
  destruct (blank tail) eqn:Bt; [|discriminate]. cbn [andb].
  destruct g0 as [|c g0].
  - destruct w as [|x [|y w]]; try discriminate.
    destruct (@exists_last _ (y :: w) ltac:(discriminate)) as (w' & z & Ew).
    change (last (x :: y :: w) 0%N) with (last (y :: w) 0%N).
    rewrite Ew in *. rewrite last_last.
    intros G; injection G as <-.
    change (x :: w' ++ [z]) with ((x :: w') ++ [z]) in *.
    unfold blank in Bw. rewrite forallb_app in Bw.
    apply andb_true_iff in Bw as [Bw Bz]. cbn [forallb] in Bz.
    rewrite andb_true_r in Bz.
    exists w0, (x :: w'), tail. repeat split; try assumption; try discriminate.
    + rewrite E. rewrite <- !app_assoc. reflexivity.
    + cbn [forallb]. rewrite (space_not_semicolon z Bz). reflexivity.
  - destruct w as [|x w]; [discriminate|].
    intros G; injection G as <-.
    exists w0, (x :: w), tail. repeat split; try assumption; discriminate.
Qed.

Lemma py_strip_blank (s : str) : blank s = true -> py_strip s = [].
Proof.
  intros B. unfold py_strip, py_lstrip.
  pose proof (drop_while_app isspace s [] B) as E. rewrite app_nil_r in E.
  rewrite E. reflexivity.
Qed.

Lemma py_strip_lead (w s : str) : blank w = true -> py_strip (w ++ s) = py_strip s.
Proof.
  intros B. unfold py_strip, py_lstrip. rewrite (drop_while_app isspace w s B).
  reflexivity.
Qed.

Lemma py_strip_trail (s w : str) :
  match s with [] => True | c :: _ => isspace c = false end ->
  blank w = true -> py_strip (s ++ w) = py_strip s.
Proof.
  intros Hs B. unfold py_strip, py_lstrip.
  destruct s as [|c s].
  - cbn [app]. pose proof (drop_while_app isspace w [] B) as E.
    rewrite app_nil_r in E. rewrite E. reflexivity.
  - rewrite (drop_while_stop isspace ((c :: s) ++ w)) by exact Hs.
    rewrite (drop_while_stop isspace (c :: s)) by exact Hs.
    apply rstrip_app_blank. exact B.
Qed.

Lemma unquote_of_strip (a b : str) : py_strip a = py_strip b -> _unquote a = _unquote b.
Proof. intros E. unfold _unquote. rewrite E. reflexivity. Qed.

Lemma last_blank (w : str) : blank w = true -> w <> [] -> isspace (last w 0%N) = true.
Proof.
  intros B N. destruct (@exists_last _ w N) as (w' & z & ->).
  rewrite last_last. rewrite blank_app in B.
  apply andb_true_iff in B as [_ B]. cbn in B. rewrite andb_true_r in B. exact B.
Qed.

Lemma include_capture_of_directive (w0 w1 arg w2 w3 : str) :
  blank w0 = true -> w1 <> [] -> blank w1 = true ->
  arg <> [] -> forallb not_semicolon arg = true ->
  blank w2 = true -> blank w3 = true ->
  exists g,
    include_capture (w0 ++ lit "include" ++ w1 ++ arg ++ w2 ++ semicolon :: w3)
    = Some g
    /\ py_strip g = py_strip arg.
Proof.
  intros B0 N1 B1 Na Sa B2 B3.
  assert (T : tail_ok (semicolon :: w3) = true)
    by (cbn [tail_ok]; rewrite N.eqb_refl; exact B3).
  pose proof (take_drop_while isspace arg) as Ea.
  pose proof (take_while_all isspace arg) as Ba.
  pose proof (drop_while_head isspace arg) as Ha.
  set (wa := take_while isspace arg) in *. clearbody wa.
  destruct (drop_while isspace arg) as [|c arg'].
  - rewrite app_nil_r in Ea. subst wa.
    replace (w0 ++ lit "include" ++ w1 ++ arg ++ w2 ++ semicolon :: w3)
      with (w0 ++ lit "include" ++ (w1 ++ arg ++ w2) ++ [] ++ semicolon :: w3)
      by (rewrite <- !app_assoc; reflexivity).
    assert (Bw : blank (w1 ++ arg ++ w2) = true)
      by (rewrite !blank_app, B1, B2; fold (blank arg) in Ba; rewrite Ba; reflexivity).
    rewrite include_capture_on_parts; try assumption; try reflexivity; try exact I.
    rewrite T.
    assert (Nw : w1 ++ arg ++ w2 <> []).
    { destruct w1; [congruence | discriminate]. }
    pose proof (last_blank _ Bw Nw) as Hl.
    destruct w1 as [|x w1]; [congruence|].
    destruct arg as [|y arg]; [congruence|].
    destruct w1 as [|x' w1]; cbn [app] in *;
      (eexists; split; [reflexivity|]);
      (rewrite (py_strip_blank [_]);
       [symmetry; apply py_strip_blank; exact Ba
       |unfold blank; cbn [forallb]; rewrite Hl; reflexivity]).
  - subst arg.
    replace (w0 ++ lit "include" ++ w1 ++ (wa ++ c :: arg') ++ w2 ++ semicolon :: w3)
      with (w0 ++ lit "include" ++ (w1 ++ wa)
            ++ ((c :: arg') ++ w2) ++ semicolon :: w3)
      by (rewrite <- !app_assoc; reflexivity).
    rewrite forallb_app in Sa.
    apply andb_true_iff in Sa as [_ Sa].
    rewrite include_capture_on_parts; try assumption; try exact I.
    + rewrite T. cbn [app].
      destruct (w1 ++ wa) eqn:Ew.
      * destruct w1; [congruence | discriminate].
      * eexists; split; [reflexivity|].
        change (c :: arg' ++ w2) with ((c :: arg') ++ w2).
        rewrite (py_strip_trail (c :: arg') w2 Ha B2).
        symmetry. apply py_strip_lead. exact Ba.
    + rewrite blank_app, B1. exact Ba.
    + rewrite forallb_app, Sa. exact (blank_not_semicolon w2 B2).
    + reflexivity.
Qed.

Lemma rstrip_linefeeds_blank (w : str) :
  blank w = true -> blank (py_rstrip_char LF w) = true.
Proof.
  intros B. destruct (rstrip_parts (N.eqb LF) w) as [E _].
  fold (py_rstrip_char LF w) in E. rewrite E, blank_app in B.
  apply andb_true_iff in B as [B _]. exact B.
Qed.

(** The parser returns a path exactly on the lines that read as an include
    directive, and the path is the argument unquoted. *)
Lemma parse_include_path_iff (raw p : str) :
  _parse_include_path raw = Some p <-> include_directive raw p.
Proof.
  rewrite parse_include_path_capture. split.
  - destruct (include_capture _) as [g|] eqn:E; [|discriminate].
    intros P; injection P as <-.
    destruct (include_capture_parts _ _ E)
      as (w0 & w1 & w3 & Ec & B0 & N1 & B1 & Ng & Sg & B3).
    destruct (rstrip_parts (N.eqb LF) (_strip_comments raw)) as [Ep Bp].
    fold (py_rstrip_char LF (_strip_comments raw)) in Ep.
    exists w0, w1, g, [],
      (w3 ++ rev (take_while (N.eqb LF) (rev (_strip_comments raw)))).
    repeat split; try assumption; try reflexivity.
    + rewrite Ep at 1. rewrite Ec, <- !app_assoc. reflexivity.
    + rewrite blank_app, B3. exact (linefeeds_blank _ Bp).
  - intros (w0 & w1 & arg & w2 & w3 & E & B0 & N1 & B1 & Na & Sa & B2 & B3 & ->).
    rewrite E.
    replace (w0 ++ lit "include" ++ w1 ++ arg ++ w2 ++ semicolon :: w3)
      with ((w0 ++ lit "include" ++ w1 ++ arg ++ w2) ++ semicolon :: w3)
      by (rewrite <- !app_assoc; reflexivity).
    unfold py_rstrip_char. rewrite rstrip_after by reflexivity.
    fold (py_rstrip_char LF w3). rewrite <- !app_assoc.
    destruct (include_capture_of_directive w0 w1 arg w2 (py_rstrip_char LF w3)
                B0 N1 B1 Na Sa B2 (rstrip_linefeeds_blank w3 B3))
      as (g & -> & Eg).
    cbn [option_map]. f_equal. apply unquote_of_strip. exact Eg.
Qed.

(** ** Quotes around the argument *)

Lemma startswith_one (v : str) (q : char) :
  startswith v [q] = true <-> exists r, v = q :: r.
Proof.
  destruct v as [|c v]; cbn [startswith].
  - split; [discriminate | intros [r E]; discriminate E].
  - rewrite andb_true_r, N.eqb_eq. split.
    + intros ->. exists v; reflexivity.
    + intros [r E]. injection E as -> _. reflexivity.
Qed.

Lemma endswith_one (v : str) (q : char) :
  endswith v [q] = true <-> exists r, v = r ++ [q].
Proof.
  unfold endswith. cbn [rev app]. rewrite startswith_one. split.
  - intros [r E]. exists (rev r).
    rewrite <- (rev_involutive v), E. reflexivity.
  - intros [r ->]. exists (rev r). rewrite rev_app_distr. reflexivity.
Qed.

Lemma py_slice_inner (A : Type) (q1 q2 : A) (inner : list A) :
  py_slice (q1 :: inner ++ [q2]) 1 (-1) = inner.
Proof.
  unfold py_slice. cbn [length]. rewrite length_app. cbn [length].
  destruct (Z.ltb_spec 1 0); [lia|]. destruct (Z.ltb_spec (-1) 0); [|lia].
  rewrite Z.min_l, Z.max_r by lia.
  replace (Z.to_nat 1) with 1 by reflexivity. cbn [skipn].
  replace (Z.to_nat (-1 + Z.of_nat (S (length inner + 1)) - 1))
    with (length inner) by lia.
  apply firstn_app_exact.
Qed.

Lemma unquote_unfold (value : str) :
  _unquote value
  = if quote_wrapped (py_strip value)
    then py_strip (py_slice (py_strip value) 1 (-1))
    else py_strip value.
Proof. reflexivity. Qed.

Lemma quote_wrapped_pair (q : char) (inner : str) :
  q = dquote \/ q = squote -> quote_wrapped (q :: inner ++ [q]) = true.
Proof.
  intros Hq.
  assert (W : startswith (q :: inner ++ [q]) [q]
              && endswith (q :: inner ++ [q]) [q] = true).
  { apply andb_true_iff. split.
    - apply startswith_one. eexists; reflexivity.
    - apply endswith_one. exists (q :: inner). reflexivity. }
  unfold quote_wrapped. destruct Hq as [-> | ->]; rewrite W;
    [reflexivity | apply orb_true_r].
Qed.

(** A text the test accepts is a pair of quotes around something, or one
    quote character alone. *)
Lemma quote_wrapped_shape (v : str) :
  quote_wrapped v = true ->
  exists q, (q = dquote \/ q = squote)
            /\ (v = [q] \/ exists inner, v = q :: inner ++ [q]).
Proof.
  assert (A : forall q, startswith v [q] && endswith v [q] = true ->
              v = [q] \/ exists inner, v = q :: inner ++ [q]).
  { intros q H. apply andb_true_iff in H as [H1 H2].
    apply startswith_one in H1 as [r ->]. apply endswith_one in H2 as [r' E].
    destruct r as [|x r]; [left; reflexivity|]. right.
    destruct (@exists_last _ (x :: r) ltac:(discriminate)) as (inner & z & Er).
    rewrite Er in E |- *.
    change (q :: inner ++ [z]) with ((q :: inner) ++ [z]) in E.
    apply app_inj_tail in E as [_ ->]. exists inner. reflexivity. }
  unfold quote_wrapped. intros H. apply orb_true_iff in H as [H|H].
  - exists dquote. split; [left; reflexivity | exact (A _ H)].
  - exists squote. split; [right; reflexivity | exact (A _ H)].
Qed.

Lemma target_long (dir p : str) : In p (targets dir) -> 7 <= length p.
Proof.
  intros [<-|[<-|[]]]; unfold include_abs, include_rel;
    rewrite length_app; change (length (lit "/*.conf")) with 7; lia.
Qed.

(** On paths as long as a target, [_unquote] does what the words say. *)
Lemma unquote_as_worded (arg p : str) :
  2 <= length p -> (unquoted_as arg p <-> _unquote arg = p).
Proof.
  intros Lp. rewrite unquote_unfold. split.
  - intros [(q & inner & Hq & Ev & ->)|[N ->]].
    + rewrite Ev, (quote_wrapped_pair q inner Hq), py_slice_inner. reflexivity.
    + destruct (quote_wrapped (py_strip arg)) eqn:W; [|reflexivity].
      apply quote_wrapped_shape in W as (q & Hq & [E|[inner E]]).
      * rewrite E in Lp. cbn in Lp. lia.
      * destruct (N q inner Hq E).
  - destruct (quote_wrapped (py_strip arg)) eqn:W.
    + pose proof W as W'.
      apply quote_wrapped_shape in W' as (q & Hq & [E|[inner E]]).
      * rewrite E. destruct Hq as [-> | ->]; intros <-; cbn in Lp; lia.
      * rewrite E, py_slice_inner. intros <-. left. exists q, inner. auto.
    + intros <-. right. split; [|reflexivity].
      intros q inner Hq E. rewrite E, (quote_wrapped_pair q inner Hq) in W.
      discriminate W.
Qed.

Lemma include_line_directive (raw p : str) :
  2 <= length p -> (include_line raw p <-> include_directive raw p).
Proof.
  intros Lp.
  split; intros (w0 & w1 & arg & w2 & w3 & E & B0 & N1 & B1 & Na & Sa & B2 & B3 & U);
    exists w0, w1, arg, w2, w3; repeat split; try assumption.
  - symmetry. apply (unquote_as_worded arg p Lp). exact U.
  - apply (unquote_as_worded arg p Lp). symmetry. exact U.
Qed.

(** ** The include matcher *)

Lemma py_slice_span (A : Type) (l : list A) (s e : nat) :
  s <= e < length l ->
  py_slice l (Z.of_nat s) (Z.of_nat e + 1) = firstn (S e - s) (skipn s l).
Proof.
  intros H. unfold py_slice.
  destruct (Z.ltb_spec (Z.of_nat s) 0); [lia|].
  destruct (Z.ltb_spec (Z.of_nat e + 1) 0); [lia|].
  rewrite !Z.min_l by lia.
  replace (Z.to_nat (Z.of_nat e + 1 - Z.of_nat s)) with (S e - s) by lia.
  rewrite Nat2Z.id. reflexivity.
Qed.

Lemma in_span (A : Type) (l : list A) (s e : nat) (x : A) :
  In x (firstn (S e - s) (skipn s l))
  <-> exists i, s <= i <= e /\ nth_error l i = Some x.
Proof.
  split.
  - intros H. apply In_nth_error in H as [k Hk].
    assert (k < S e - s).
    { assert (L : k < length (firstn (S e - s) (skipn s l)))
        by (apply nth_error_Some; congruence).
      rewrite length_firstn in L. lia. }
    rewrite nth_error_firstn in Hk.
    destruct (Nat.ltb_spec k (S e - s)); [|lia].
    rewrite nth_error_skipn in Hk. exists (s + k). split; [lia | exact Hk].
  - intros (i & Hi & E). apply (nth_error_In _ (i - s)).
    rewrite nth_error_firstn.
    destruct (Nat.ltb_spec (i - s) (S e - s)); [|lia].
    rewrite nth_error_skipn. replace (s + (i - s)) with i by lia. exact E.
Qed.

Lemma include_hit_iff (tgts : list str) (o : option str) :
  include_hit tgts o = true <-> exists p, o = Some p /\ p <> [] /\ In p tgts.
Proof.
  destruct o as [p|]; simpl.
  - destruct p as [|c p].
    + split; [discriminate|]. intros (p & E & N & _). injection E as <-.
      congruence.
    + rewrite existsb_exists. split.
      * intros (t & Hin & Ht). apply str_eqb_eq in Ht. subst t.
        exists (c :: p). repeat split; [discriminate | exact Hin].
      * intros (q & E & _ & Hin). injection E as <-.
        exists (c :: p). split; [exact Hin | apply str_eqb_eq; reflexivity].
  - split; [discriminate|]. intros (p & E & _). discriminate.
Qed.

Lemma targets_nonempty (dir p : str) : In p (targets dir) -> p <> [].
Proof.
  intros [<-|[<-|[]]]; unfold include_abs, include_rel;
    intros E; apply app_eq_nil in E as [_ E]; discriminate E.
Qed.

Lemma includes_snippets_in_cases (lines : list str) (dir : str) :
  (find_http_block lines = Ok None /\ includes_snippets_in lines dir = Ok false)
  \/ exists b,
       find_http_block lines = Ok (Some b)
       /\ located lines b
       /\ includes_snippets_in lines dir
          = Ok (existsb
                  (fun raw => include_hit (targets dir) (_parse_include_path raw))
                  (firstn (S (end_line_index b) - start_line_index b)
                     (skipn (start_line_index b) lines))).
Proof.
  unfold includes_snippets_in.
  pose proof (find_http_block_cases lines) as H.
  destruct (find_http_block lines) as [[b|]|]; [| |destruct H].
  - right. exists b. split; [reflexivity|]. split; [exact H|].
    cbn [bind]. rewrite scan_includes_existsb.
    destruct H as (_ & R & _). rewrite py_slice_span by lia. reflexivity.
  - left. split; reflexivity.
Qed.

Lemma includes_snippets_in_true (lines : list str) (dir : str) :
  includes_snippets_in lines dir = Ok true
  <-> exists b i raw p,
        find_http_block lines = Ok (Some b)
        /\ start_line_index b <= i <= end_line_index b
        /\ nth_error lines i = Some raw
        /\ _parse_include_path raw = Some p
        /\ In p (targets dir).
Proof.
  destruct (includes_snippets_in_cases lines dir) as [[E1 E2]|(b & E1 & L & E2)];
    rewrite E2.
  - split; [discriminate|]. intros (b & _ & _ & _ & E & _). congruence.
  - split.
    + intros E. injection E as E. apply existsb_exists in E as (raw & Hin & Hh).
      apply in_span in Hin as (i & Hi & Hn).
      apply include_hit_iff in Hh as (p & Hp & _ & Ht).
      exists b, i, raw, p. auto.
    + intros (b' & i & raw & p & Eb & Hi & Hn & Hp & Ht).
      rewrite E1 in Eb; injection Eb as <-. f_equal.
      apply existsb_exists. exists raw. split.
      * apply in_span. exists i. auto.
      * apply include_hit_iff. exists p. split; [exact Hp|].
        split; [exact (targets_nonempty dir p Ht) | exact Ht].
Qed.

Lemma includes_snippets_in_bool (lines : list str) (dir : str) :
  exists r, includes_snippets_in lines dir = Ok r.
Proof.
  destruct (includes_snippets_in_cases lines dir) as [[_ E]|(b & _ & _ & E)];
    rewrite E; eexists; reflexivity.
Qed.

Lemma read_then_scan (fs : filesystem) (conf_path text dir : str) :
  fs conf_path = Some (Regular text) ->
  nginx_conf_includes_snippets fs conf_path dir
  = includes_snippets_in (splitlines text) dir.
Proof.
  intros E. unfold nginx_conf_includes_snippets, read_text. rewrite E.
  reflexivity.
Qed.

Lemma in_targets (dir p : str) :
  In p (targets dir) <-> p = include_abs dir \/ p = include_rel dir.
Proof.
  unfold targets. simpl. split.
  - intros [H|[H|[]]]; auto.
  - intros [H|H]; auto.
Qed.

Lemma includes_snippets_in_block (lines : list str) (dir : str) :
  includes_snippets_in lines dir = Ok true <-> include_in_block lines dir.
Proof.
  rewrite includes_snippets_in_true. unfold include_in_block.
  split; intros (b & i & raw & p & H1 & H2 & H3 & H4 & H5);
    exists b, i, raw, p; repeat split; try assumption; try apply H2.
  - apply include_line_directive;
      [pose proof (target_long dir p H5); lia|].
    apply parse_include_path_iff; exact H4.
  - apply in_targets; exact H5.
  - apply parse_include_path_iff. apply include_line_directive; [|exact H4].
    apply in_targets in H5. pose proof (target_long dir p H5). lia.
  - apply in_targets; exact H5.
Qed.

(** C2: the result is true exactly when some line of the located span, both
    ends included, reads [include <argument>;] after comment stripping and
    its argument, trimmed and freed of a pair of matching single or double
    quotes with what was between them trimmed, equals one of the two
    targets; it is false exactly when the block is not found or no line of
    the span does. A hit decides the scan whatever lines follow it. *)
Theorem includes_snippets_iff (fs : filesystem) (conf_path text dir : str) :
  fs conf_path = Some (Regular text) ->
  (nginx_conf_includes_snippets fs conf_path dir = Ok true
   <-> include_in_block (splitlines text) dir)
  /\ (nginx_conf_includes_snippets fs conf_path dir = Ok false
      <-> ~ include_in_block (splitlines text) dir)
  /\ (forall before raw after p,
        include_line raw p ->
        p = include_abs dir \/ p = include_rel dir ->
        scan_includes (targets dir) (before ++ raw :: after) = true).
Proof.
  intros E. rewrite (read_then_scan fs conf_path text dir E).
  split; [apply includes_snippets_in_block|]. split.
  - rewrite <- includes_snippets_in_block.
    destruct (includes_snippets_in_bool (splitlines text) dir) as [[|] ->];
      split; congruence.
  - intros before raw after p D T.
    rewrite scan_includes_existsb, existsb_app. cbn [existsb].
    apply in_targets in T.
    apply include_line_directive in D;
      [|pose proof (target_long dir p T); lia].
    apply parse_include_path_iff in D.
    assert (H : include_hit (targets dir) (_parse_include_path raw) = true).
    { apply include_hit_iff. exists p. split; [exact D|].
      split; [exact (targets_nonempty dir p T) | exact T]. }
    rewrite H. apply orb_true_r.
Qed.

Lemma includes_snippets_iff_witness :
  nginx_conf_includes_snippets (single_file conf_quoted_abs) (lit "nginx.conf")
    (lit "/etc/nginx/conf.d") = Ok true
  /\ include_in_block (splitlines conf_quoted_abs) (lit "/etc/nginx/conf.d")
  /\ nginx_conf_includes_snippets (single_file conf_quoted_abs) (lit "nginx.conf")
       (lit "/etc/nginx/sites") = Ok false
  /\ ~ include_in_block (splitlines conf_quoted_abs) (lit "/etc/nginx/sites").
Proof.
  pose proof (includes_snippets_iff (single_file conf_quoted_abs)
                (lit "nginx.conf") conf_quoted_abs (lit "/etc/nginx/conf.d")
                eq_refl) as (H1 & _ & _).
  pose proof (includes_snippets_iff (single_file conf_quoted_abs)
                (lit "nginx.conf") conf_quoted_abs (lit "/etc/nginx/sites")
                eq_refl) as (_ & H2 & _).
  assert (T : nginx_conf_includes_snippets (single_file conf_quoted_abs)
                (lit "nginx.conf") (lit "/etc/nginx/conf.d") = Ok true)
    by (vm_compute; reflexivity).
  assert (F : nginx_conf_includes_snippets (single_file conf_quoted_abs)
                (lit "nginx.conf") (lit "/etc/nginx/sites") = Ok false)
    by (vm_compute; reflexivity).
  split; [exact T|]. split; [exact (proj1 H1 T)|].
  split; [exact F | exact (proj1 H2 F)].
Defined.

(** An include directive counts only on a line of the located span: when
    no line of the span carries a matching include, the result is false,
    whatever matching includes stand before its first or after its last
    line. *)
Lemma include_outside_block_ignored
    (fs : filesystem) (conf_path text dir : str) :
  fs conf_path = Some (Regular text) ->
  (forall b i raw,
      find_http_block (splitlines text) = Ok (Some b) ->
      start_line_index b <= i <= end_line_index b ->
      nth_error (splitlines text) i = Some raw ->
      include_hit (targets dir) (_parse_include_path raw) = false) ->
  nginx_conf_includes_snippets fs conf_path dir = Ok false.
Proof.
  intros E H. rewrite (read_then_scan fs conf_path text dir E).
  destruct (includes_snippets_in_bool (splitlines text) dir) as [[|] R];
    [|exact R].
  apply includes_snippets_in_true in R
    as (b & i & raw & p & Eb & Hi & Hn & Hp & Ht).
  specialize (H b i raw Eb Hi Hn).
  assert (T : include_hit (targets dir) (_parse_include_path raw) = true).
  { apply include_hit_iff. exists p. split; [exact Hp|].
    split; [exact (targets_nonempty dir p Ht) | exact Ht]. }
  congruence.
Qed.

Lemma include_outside_sample :
  nth_error (splitlines conf_outside) 0 = Some (lit "include conf.d/*.conf;" ++ [LF])
  /\ nth_error (splitlines conf_outside) 4 = Some (lit "include conf.d/*.conf;" ++ [LF])
  /\ include_hit (targets (lit "/etc/nginx/conf.d"))
       (_parse_include_path (lit "include conf.d/*.conf;" ++ [LF])) = true
  /\ find_http_block (splitlines conf_outside) = Ok (Some (mkHttpBlock 1 3))
  /\ nginx_conf_includes_snippets (single_file conf_outside) (lit "nginx.conf")
       (lit "/etc/nginx/conf.d") = Ok false.
Proof.
  split; [reflexivity|]. split; [reflexivity|].
  split; [vm_compute; reflexivity|]. split; [vm_compute; reflexivity|].
  apply (include_outside_block_ignored (single_file conf_outside)
           (lit "nginx.conf") conf_outside (lit "/etc/nginx/conf.d") eq_refl).
  intros b i raw Eb Hi Hn.
  vm_compute in Eb. injection Eb as <-. cbn in Hi.
  destruct i as [|[|[|[|i]]]]; try lia;
    vm_compute in Hn; injection Hn as <-; vm_compute; reflexivity.
Qed.

(** C4 fails on the code for a block closed on its opening line. The depth
    is back to 0 on line 0, but the end of the span is looked for on later
    lines only, so the span runs on to line 1: the include there, after the
    closing brace and outside the block, is honoured. *)
Theorem include_after_closed_block_honoured :
  splitlines conf_include_after_block
  = [lit "http { server_tokens off; }" ++ [LF];
     lit "include conf.d/*.conf;" ++ [LF]]
  /\ depth_at (splitlines conf_include_after_block) 0 0 = 0%Z
  /\ _parse_include_path (lit "http { server_tokens off; }" ++ [LF]) = None
  /\ find_http_block (splitlines conf_include_after_block)
     = Ok (Some (mkHttpBlock 0 1))
  /\ nginx_conf_includes_snippets (single_file conf_include_after_block)
       (lit "/etc/nginx/nginx.conf") (lit "/etc/nginx/conf.d") = Ok true.
Proof. repeat split; vm_compute; reflexivity. Qed.


(** C6: no file content makes the check raise. The locator returns a block
    or [None] on every list of lines, the matcher returns a boolean on every
    list of lines and every text read from a file, and where no block is
    located (no opening line, or braces that never balance) that boolean is
    false. *)
Theorem inclusion_check_total :
  (forall lines, exists ob, find_http_block lines = Ok ob)
  /\ (forall lines dir,
        exists r, includes_snippets_in lines dir = Ok r
                  /\ (find_http_block lines = Ok None -> r = false))
  /\ (forall (fs : filesystem) conf_path text dir,
        fs conf_path = Some (Regular text) ->
        exists r, nginx_conf_includes_snippets fs conf_path dir = Ok r
                  /\ (no_block (splitlines text) -> r = false)).
Proof.
  assert (A : forall lines dir,
             exists r, includes_snippets_in lines dir = Ok r
                       /\ (find_http_block lines = Ok None -> r = false)).
  { intros lines dir.
    destruct (includes_snippets_in_cases lines dir) as [[E1 E2]|(b & E1 & _ & E2)];
      rewrite E2; eexists; (split; [reflexivity|]).
    - reflexivity.
    - rewrite E1; discriminate. }
  split; [|split].
  - intros lines. pose proof (find_http_block_cases lines) as H.
    destruct (find_http_block lines) as [ob|]; [|destruct H].
    exists ob; reflexivity.
  - exact A.
  - intros fs conf_path text dir E.
    rewrite (read_then_scan fs conf_path text dir E).
    destruct (A (splitlines text) dir) as (r & R & H).
    exists r. split; [exact R|]. intros N. apply H.
    pose proof (find_http_block_cases (splitlines text)) as C.
    destruct (find_http_block (splitlines text)) as [[b|]|];
      [|reflexivity|destruct C].
    destruct (located_not_no_block _ b C N).
Qed.

(** ** The command *)

(** C8: the command exits with 2, and only writes the error message, when
    nothing stands at the configuration path; when a readable file stands
    there it exits with 0 when the inclusion result is true and with 1
    when it is false, and with the verbose flag it writes [yes] or [no] to
    standard output. Where a directory or a file it may not read stands at
    the path, reading raises and the command writes nothing. *)
Theorem cmd_exit_status (fs : filesystem) (args : Namespace) (io : streams) :
  match fs (path_str (conf args)) with
  | None =>
      _cmd_includes_snippets fs args io
      = (Ok 2%Z,
         {| stdout := stdout io;
            stderr := stderr io
                      ++ [lit "ERROR: nginx config not found: "
                          ++ path_str (conf args) ++ [LF]] |})
  | Some (Regular text) =>
      exists ok,
        includes_snippets_in (splitlines text) (snippets_dir args) = Ok ok
        /\ _cmd_includes_snippets fs args io
           = (Ok (if ok then 0%Z else 1%Z),
              {| stdout := stdout io
                           ++ (if verbose args
                               then [(if ok then lit "yes" else lit "no") ++ [LF]]
                               else []);
                 stderr := stderr io |})
  | Some Directory =>
      _cmd_includes_snippets fs args io = (Raise IsADirectoryError, io)
  | Some Protected =>
      _cmd_includes_snippets fs args io = (Raise PermissionError, io)
  end.
Proof.
  unfold _cmd_includes_snippets, path_exists.
  destruct (fs (path_str (conf args))) as [[text| |]|] eqn:E; cbn [truthy negb].
  - rewrite (read_then_scan fs _ text (snippets_dir args) E).
    destruct (includes_snippets_in_bool (splitlines text) (snippets_dir args))
      as [ok R].
    exists ok. split; [exact R|]. rewrite R.
    destruct (verbose args); [reflexivity|].
    rewrite app_nil_r. destruct io; reflexivity.
  - unfold nginx_conf_includes_snippets, read_text. rewrite E. reflexivity.
  - unfold nginx_conf_includes_snippets, read_text. rewrite E. reflexivity.
  - unfold print_stderr. rewrite <- app_assoc. reflexivity.
Qed.

Lemma cmd_exit_status_witness :
  _cmd_includes_snippets (single_file conf_relative)
    {| conf := lit "/etc/nginx/nginx.conf";
       snippets_dir := lit "/etc/nginx/conf.d";
       verbose := true |} no_output
  = (Ok 0%Z, {| stdout := [lit "yes" ++ [LF]]; stderr := [] |})
  /\ _cmd_includes_snippets (single_file conf_outside)
       {| conf := lit "/etc/nginx/nginx.conf";
          snippets_dir := lit "/etc/nginx/conf.d";
          verbose := true |} no_output
     = (Ok 1%Z, {| stdout := [lit "no" ++ [LF]]; stderr := [] |})
  /\ _cmd_includes_snippets (fun _ => None)
       {| conf := lit "./conf//nginx.conf";
          snippets_dir := lit "/etc/nginx/conf.d";
          verbose := true |} no_output
     = (Ok 2%Z,
        {| stdout := [];
           stderr := [lit "ERROR: nginx config not found: conf/nginx.conf"
                      ++ [LF]] |})
  /\ _cmd_includes_snippets
       (fun p => if str_eqb p (lit ".") then Some Directory else None)
       {| conf := [];
          snippets_dir := lit "/etc/nginx/conf.d";
          verbose := true |} no_output
     = (Raise IsADirectoryError, no_output).
Proof.
  split; [|split; [|split]].
  - destruct (cmd_exit_status (single_file conf_relative)
                {| conf := lit "/etc/nginx/nginx.conf";
                   snippets_dir := lit "/etc/nginx/conf.d";
                   verbose := true |} no_output) as (ok & R & ->).
    vm_compute in R. injection R as <-. reflexivity.
  - destruct (cmd_exit_status (single_file conf_outside)
                {| conf := lit "/etc/nginx/nginx.conf";
                   snippets_dir := lit "/etc/nginx/conf.d";
                   verbose := true |} no_output) as (ok & R & ->).
    vm_compute in R. injection R as <-. reflexivity.
  - exact (cmd_exit_status (fun _ => None)
             {| conf := lit "./conf//nginx.conf";
                snippets_dir := lit "/etc/nginx/conf.d";
                verbose := true |} no_output).
  - exact (cmd_exit_status
             (fun p => if str_eqb p (lit ".") then Some Directory else None)
             {| conf := [];
                snippets_dir := lit "/etc/nginx/conf.d";
                verbose := true |} no_output).
Defined.

(** ** The two targets *)

Lemma all_slashes (s : str) :
  forallb (N.eqb slash) s = true -> s = repeat slash (length s).
Proof.
  induction s as [|c s IH]; [reflexivity|]. cbn [forallb].
  intros H; apply andb_true_iff in H as [H1 H2].
  apply N.eqb_eq in H1; subst c. cbn [length repeat]. f_equal. exact (IH H2).
Qed.

Lemma repeat_all_slashes (k : nat) : forallb (N.eqb slash) (repeat slash k) = true.
Proof. induction k; [reflexivity|]. cbn [repeat forallb]. rewrite IHk. reflexivity. Qed.

Lemma trimmed_dir (dir : str) :
  dir = py_rstrip_char slash dir
        ++ repeat slash (length dir - length (py_rstrip_char slash dir))
  /\ forall d', py_rstrip_char slash dir <> d' ++ [slash].
Proof.
  destruct (rstrip_parts (N.eqb slash) dir) as [E B].
  fold (py_rstrip_char slash dir) in E. split.
  - rewrite (all_slashes _ B) in E.
    rewrite E at 1. f_equal. f_equal.
    rewrite E at 2. rewrite length_app, repeat_length. lia.
  - intros d' Ed. pose proof (rstrip_is_clean (N.eqb slash) dir) as C.
    fold (py_rstrip_char slash dir) in C. rewrite Ed, rev_app_distr in C.
    cbn in C. discriminate C.
Qed.

Lemma removeprefix_cases (s prefix : str) :
  (exists rest, s = prefix ++ rest /\ removeprefix s prefix = rest)
  \/ ((forall rest, s <> prefix ++ rest) /\ removeprefix s prefix = s).
Proof.
  unfold removeprefix. destruct (startswith s prefix) eqn:E.
  - left. exists (skipn (length prefix) s). split; [|reflexivity].
    exact (startswith_split s prefix E).
  - right. split; [|reflexivity]. intros rest ->.
    rewrite startswith_app in E. discriminate.
Qed.

Lemma spec_rel_agrees (dir : str) :
  (startswith dir (lit "/etc/nginx/") = true ->
   startswith (py_rstrip_char slash dir) (lit "/etc/nginx/") = true) ->
  spec_include_rel dir = include_rel dir.
Proof.
  intros H. unfold spec_include_rel, include_rel. f_equal.
  destruct (rstrip_parts (N.eqb slash) dir) as [E B].
  fold (py_rstrip_char slash dir) in E.
  set (d := py_rstrip_char slash dir) in *.
  set (tl := rev (take_while (N.eqb slash) (rev dir))) in *.
  unfold removeprefix at 1.
  destruct (startswith dir (lit "/etc/nginx/")) eqn:S.
  - specialize (H eq_refl). unfold removeprefix. rewrite H.
    pose proof (startswith_split _ _ H) as Ed.
    set (rest' := skipn (length (lit "/etc/nginx/")) d) in *.
    assert (Er : skipn (length (lit "/etc/nginx/")) dir = rest' ++ tl).
    { rewrite E, Ed, <- app_assoc. apply skipn_app_exact. }
    rewrite Er. unfold py_rstrip_char. rewrite (rstrip_app_blank _ _ _ B).
    destruct rest' as [|c r] eqn:R; [reflexivity|].
    apply rstrip_clean.
    pose proof (rstrip_is_clean (N.eqb slash) dir) as C.
    fold (py_rstrip_char slash dir) in C. fold d in C.
    rewrite Ed, rev_app_distr in C.
    destruct (rev (c :: r)) as [|z q] eqn:Rv; [|exact C].
    apply (f_equal (@length char)) in Rv. rewrite length_rev in Rv.
    discriminate Rv.
  - clear H. unfold removeprefix.
    destruct (startswith d (lit "/etc/nginx/")) eqn:S'; [|reflexivity].
    apply startswith_split in S'. rewrite E, S', <- app_assoc in S.
    rewrite startswith_app in S. discriminate.
Qed.

(** C5, as the code has it: the targets are two strings built from the
    snippets directory with all its trailing slashes removed: (a) that
    trimmed directory followed by [/*.conf], and (b) the trimmed directory
    without its leading [/etc/nginx/], when it still has one, followed by
    [/*.conf]. An extracted path is accepted exactly when it equals one of
    them. Removing the prefix before the slashes gives the same (b)
    whenever trimming does not eat into the prefix. *)
Theorem targets_two_candidates (dir : str) :
  exists d k,
    dir = d ++ repeat slash k
    /\ (forall d', d <> d' ++ [slash])
    /\ targets dir = [include_abs dir; include_rel dir]
    /\ include_abs dir = d ++ lit "/*.conf"
    /\ (forall rest, d = lit "/etc/nginx/" ++ rest ->
                     include_rel dir = rest ++ lit "/*.conf")
    /\ ((forall rest, d <> lit "/etc/nginx/" ++ rest) ->
        include_rel dir = d ++ lit "/*.conf")
    /\ (forall p, include_hit (targets dir) (Some p) = true
                  <-> p = include_abs dir \/ p = include_rel dir)
    /\ ((startswith dir (lit "/etc/nginx/") = true ->
         startswith d (lit "/etc/nginx/") = true) ->
        spec_include_rel dir = include_rel dir).
Proof.
  exists (py_rstrip_char slash dir),
    (length dir - length (py_rstrip_char slash dir)).
  destruct (trimmed_dir dir) as [E C].
  split; [exact E|]. split; [exact C|]. split; [reflexivity|].
  split; [reflexivity|]. split; [|split; [|split]].
  - intros rest Er. unfold include_rel. f_equal.
    destruct (removeprefix_cases (py_rstrip_char slash dir) (lit "/etc/nginx/"))
      as [(r & E1 & ->)|[N _]].
    + rewrite Er in E1. exact (eq_sym (app_inv_head _ _ _ E1)).
    + destruct (N rest Er).
  - intros N. unfold include_rel. f_equal.
    destruct (removeprefix_cases (py_rstrip_char slash dir) (lit "/etc/nginx/"))
      as [(r & E1 & _)|[_ ->]]; [destruct (N r E1) | reflexivity].
  - intros p. rewrite include_hit_iff, <- in_targets. split.
    + intros (q & Eq & _ & Hin). injection Eq as <-. exact Hin.
    + intros Hin. exists p. split; [reflexivity|].
      split; [exact (targets_nonempty dir p Hin) | exact Hin].
  - apply spec_rel_agrees.
Qed.

(** C5, as the specification words it, fails on the nginx root with a
    trailing slash: the prefix is present in the snippets directory, yet
    the code does not remove it, so the path the specification's (b)
    gives is not accepted. *)
Lemma targets_prefix_first_fails :
  exists dir,
    startswith dir (lit "/etc/nginx/") = true
    /\ targets dir = [lit "/etc/nginx/*.conf"; lit "/etc/nginx/*.conf"]
    /\ spec_include_rel dir = lit "/*.conf"
    /\ include_hit (targets dir) (Some (spec_include_rel dir)) = false.
Proof.
  exists (lit "/etc/nginx/"). repeat split; vm_compute; reflexivity.
Qed.

(** ** Unquoting *)

Lemma py_strip_idem (s : str) : py_strip (py_strip s) = py_strip s.
Proof.
  unfold py_strip at 1. unfold py_lstrip.
  assert (H : drop_while isspace (py_strip s) = py_strip s).
  { apply drop_while_stop. unfold py_strip, py_lstrip.
    pose proof (drop_while_head isspace s) as Hh.
    destruct (rstrip_parts isspace (drop_while isspace s)) as [E _].
    fold (py_rstrip (drop_while isspace s)) in E.
    destruct (py_rstrip (drop_while isspace s)) as [|c u]; [exact I|].
    rewrite E in Hh. exact Hh. }
  rewrite H. unfold py_rstrip. apply rstrip_clean.
  unfold py_strip, py_rstrip. apply rstrip_is_clean.
Qed.

(** X1: [_unquote] trims its argument, then removes one pair of quotes when
    the trimmed text both starts and ends with the same quote character,
    and trims what was between them; a text that is one quote character
    alone counts as wrapped and gives the empty string; any other text is
    returned trimmed, quotes and all. *)
Theorem unquote_cases (value : str) :
  (forall q inner,
      q = dquote \/ q = squote ->
      py_strip value = q :: inner ++ [q] ->
      _unquote value = py_strip inner)
  /\ (forall q,
        q = dquote \/ q = squote ->
        py_strip value = [q] -> _unquote value = [])
  /\ ((forall q, q = dquote \/ q = squote ->
                 (forall r, py_strip value <> q :: r)
                 \/ (forall r, py_strip value <> r ++ [q])) ->
      _unquote value = py_strip value).
Proof.
  unfold _unquote. split; [|split].
  - intros q inner Hq E. rewrite E.
    assert (W : startswith (q :: inner ++ [q]) [q]
                && endswith (q :: inner ++ [q]) [q] = true).
    { apply andb_true_iff. split.
      - apply startswith_one. eexists; reflexivity.
      - apply endswith_one. exists (q :: inner). reflexivity. }
    destruct Hq as [-> | ->]; rewrite W, ?orb_true_r; cbn [orb];
      rewrite py_slice_inner; reflexivity.
  - intros q Hq E. rewrite E.
    destruct Hq as [-> | ->]; reflexivity.
  - intros H.
    assert (N : forall q, q = dquote \/ q = squote ->
                startswith (py_strip value) [q]
                && endswith (py_strip value) [q] = false).
    { intros q Hq. apply andb_false_iff.
      destruct (H q Hq) as [N|N]; [left|right].
      - destruct (startswith (py_strip value) [q]) eqn:E; [|reflexivity].
        apply startswith_one in E as [r E]. destruct (N r E).
      - destruct (endswith (py_strip value) [q]) eqn:E; [|reflexivity].
        apply endswith_one in E as [r E]. destruct (N r E). }
    rewrite (N dquote (or_introl eq_refl)), (N squote (or_intror eq_refl)).
    reflexivity.
Qed.

Lemma unquote_cases_witness :
  _unquote (lit "  'conf.d/*.conf'  ") = lit "conf.d/*.conf"
  /\ _unquote (lit " 'conf.d/*.conf ") = lit "'conf.d/*.conf".
Proof.
  destruct (unquote_cases (lit "  'conf.d/*.conf'  ")) as (H1 & _ & _).
  destruct (unquote_cases (lit " 'conf.d/*.conf ")) as (_ & _ & H3).
  split.
  - exact (H1 squote (lit "conf.d/*.conf") (or_intror eq_refl) eq_refl).
  - apply H3. intros q Hq. right. intros r E.
    apply (f_equal (@rev char)) in E. rewrite rev_app_distr in E.
    vm_compute in E. destruct Hq as [-> | ->]; discriminate E.
Defined.

Lemma unquote_trimmed (value : str) : py_strip (_unquote value) = _unquote value.
Proof.
  unfold _unquote.
  destruct (startswith (py_strip value) [dquote] && endswith (py_strip value) [dquote]
            || startswith (py_strip value) [squote] && endswith (py_strip value) [squote]);
    apply py_strip_idem.
Qed.

(** X2: a path returned by the include parser never starts or ends with
    white space, with or without quotes around the argument. *)
Theorem parsed_path_trimmed (line p : str) :
  _parse_include_path line = Some p -> py_strip p = p.
Proof.
  unfold _parse_include_path.
  destruct (re_match INCLUDE_RE _) as [m|]; [|discriminate].
  intros E; injection E as <-. apply unquote_trimmed.
Qed.

Lemma parsed_path_trimmed_witness :
  py_strip (lit "conf.d/*.conf") = lit "conf.d/*.conf".
Proof.
  apply (parsed_path_trimmed (lit "  include ' conf.d/*.conf ' ;" ++ [LF])).
  vm_compute. reflexivity.
Defined.

(** ** Comments *)

Lemma py_index_stripped (lines lines' : list str) (i : nat) :
  map _strip_comments lines = map _strip_comments lines' ->
  match py_index lines i, py_index lines' i with
  | Ok raw, Ok raw' => _strip_comments raw = _strip_comments raw'
  | Raise e, Raise e' => e = e'
  | _, _ => False
  end.
Proof.
  intros E. unfold py_index.
  pose proof (f_equal (fun l => nth_error l i) E) as H. cbn beta in H.
  rewrite !nth_error_map in H.
  destruct (nth_error lines i), (nth_error lines' i); cbn in H;
    try discriminate H; [injection H as H; exact H | reflexivity].
Qed.

Lemma find_http_open_stripped (lines lines' : list str) :
  map _strip_comments lines = map _strip_comments lines' ->
  forall rest rest' i,
    map _strip_comments rest = map _strip_comments rest' ->
    find_http_open lines i rest = find_http_open lines' i rest'.
Proof.
  intros E rest. induction rest as [|raw rest IH]; intros [|raw' rest'] i Er;
    try discriminate Er; [reflexivity|].
  cbn [map] in Er. injection Er as Eh Et. cbn [find_http_open].
  rewrite Eh, (IH rest' (S i) Et).
  assert (L : length lines = length lines')
    by (rewrite <- (length_map _strip_comments lines), E; apply length_map).
  rewrite L.
  pose proof (py_index_stripped lines lines' (i + 1) E) as P.
  destruct (py_index lines (i + 1)) as [nx|e], (py_index lines' (i + 1)) as [nx'|e'];
    cbn [bind].
  - rewrite P. reflexivity.
  - destruct P.
  - destruct P.
  - rewrite P. reflexivity.
Qed.

Lemma scan_depth_stripped (lines lines' : list str) (o : nat) :
  map _strip_comments lines = map _strip_comments lines' ->
  forall indices d,
    scan_depth lines o d indices = scan_depth lines' o d indices.
Proof.
  intros E indices. induction indices as [|i indices IH]; intros d;
    [reflexivity|].
  cbn [scan_depth].
  pose proof (py_index_stripped lines lines' i E) as P.
  destruct (py_index lines i) as [raw|e], (py_index lines' i) as [raw'|e'];
    cbn [bind].
  - rewrite P, IH. reflexivity.
  - destruct P.
  - destruct P.
  - rewrite P. reflexivity.
Qed.

Lemma parse_include_path_stripped (raw raw' : str) :
  _strip_comments raw = _strip_comments raw' ->
  _parse_include_path raw = _parse_include_path raw'.
Proof. intros E. unfold _parse_include_path. rewrite E. reflexivity. Qed.

Lemma scan_includes_stripped (tgts : list str) :
  forall span span',
    map _strip_comments span = map _strip_comments span' ->
    scan_includes tgts span = scan_includes tgts span'.
Proof.
  induction span as [|raw span IH]; intros [|raw' span'] E;
    try discriminate E; [reflexivity|].
  cbn [map] in E. injection E as Eh Et. cbn [scan_includes].
  rewrite (parse_include_path_stripped raw raw' Eh), (IH span' Et).
  reflexivity.
Qed.

Lemma py_slice_map (A B : Type) (f : A -> B) (l : list A) (a b : Z) :
  map f (py_slice l a b) = py_slice (map f l) a b.
Proof.
  unfold py_slice. rewrite length_map, <- firstn_map, <- skipn_map. reflexivity.
Qed.

(** X3: only the comment-stripped text of the lines is ever looked at. Two
    files whose lines agree once comments are stripped get the same block
    and the same inclusion result, whatever their comments hold: braces,
    [http], include directives. *)
Theorem comments_are_invisible (lines lines' : list str) :
  map _strip_comments lines = map _strip_comments lines' ->
  find_http_block lines = find_http_block lines'
  /\ forall dir, includes_snippets_in lines dir = includes_snippets_in lines' dir.
Proof.
  intros E.
  assert (L : length lines = length lines')
    by (rewrite <- (length_map _strip_comments lines), E; apply length_map).
  assert (F : find_http_block lines = find_http_block lines').
  { unfold find_http_block.
    rewrite (find_http_open_stripped lines lines' E lines lines' 0 E).
    destruct (find_http_open lines' 0 lines') as [[o|]|]; cbn [bind];
      [|reflexivity|reflexivity].
    rewrite L. apply scan_depth_stripped. exact E. }
  split; [exact F|]. intros dir. unfold includes_snippets_in. rewrite F.
  destruct (find_http_block lines') as [[b|]|]; cbn [bind]; try reflexivity.
  f_equal. apply scan_includes_stripped.
  rewrite !py_slice_map, E. reflexivity.
Qed.

Lemma comments_are_invisible_witness :
  includes_snippets_in
    [lit "http {  # } include conf.d/*.conf;" ++ [LF];
     lit "  include conf.d/*.conf;  # http {" ++ [LF];
     lit "}" ++ [LF]] (lit "/etc/nginx/conf.d")
  = includes_snippets_in
      [lit "http {  # web" ++ [LF];
       lit "  include conf.d/*.conf;  #" ++ [LF];
       lit "}" ++ [LF]] (lit "/etc/nginx/conf.d").
Proof.
  apply (comments_are_invisible
           [lit "http {  # } include conf.d/*.conf;" ++ [LF];
            lit "  include conf.d/*.conf;  # http {" ++ [LF];
            lit "}" ++ [LF]]
           [lit "http {  # web" ++ [LF];
            lit "  include conf.d/*.conf;  #" ++ [LF];
            lit "}" ++ [LF]]).
  vm_compute. reflexivity.
Defined.

(** ** What follows the block *)

Lemma span_agree (A : Type) (l l' : list A) (o e' e : nat) :
  firstn (S e) l' = firstn (S e) l -> o <= S e' -> e' <= e ->
  firstn (S e' - o) (skipn o l') = firstn (S e' - o) (skipn o l).
Proof.
  intros E Ho He. rewrite !firstn_skipn_comm.
  replace (o + (S e' - o)) with (S e') by lia.
  rewrite <- (Nat.min_l (S e') (S e)) by lia.
  rewrite <- !firstn_firstn, E. reflexivity.
Qed.

Lemma nth_error_agree (A : Type) (l l' : list A) (k e : nat) :
  firstn (S e) l' = firstn (S e) l -> k <= e ->
  nth_error l' k = nth_error l k.
Proof.
  intros E Hk.
  pose proof (nth_error_firstn (S e) l k) as H.
  pose proof (nth_error_firstn (S e) l' k) as H'.
  destruct (Nat.ltb_spec k (S e)); [|lia].
  rewrite <- H, <- H', E. reflexivity.
Qed.

Lemma opening_at_agree (lines lines' : list str) (i o e : nat) :
  firstn (S e) lines' = firstn (S e) lines -> S i <= e ->
  opening_at lines i o -> opening_at lines' i o.
Proof.
  intros E Hi (raw & Hn & H). exists raw. split.
  - rewrite (nth_error_agree _ lines lines' i e E) by lia. exact Hn.
  - destruct H as [H|(H1 & H2 & next & Hx & H3)]; [left; exact H|].
    right. split; [exact H1|]. split; [exact H2|]. exists next.
    split; [|exact H3].
    rewrite (nth_error_agree _ lines lines' (i + 1) e E) by lia. exact Hx.
Qed.

Lemma depth_at_agree (lines lines' : list str) (o e' e : nat) :
  firstn (S e) lines' = firstn (S e) lines -> o <= S e' -> e' <= e ->
  depth_at lines' o e' = depth_at lines o e'.
Proof.
  intros E Ho He. unfold depth_at.
  rewrite (span_agree _ lines lines' o e' e E Ho He). reflexivity.
Qed.

Lemma opening_at_order (lines : list str) (i o : nat) :
  opening_at lines i o -> i <= o.
Proof. intros (raw & _ & [[_ ->]|(_ & -> & _)]); lia. Qed.

Lemma located_agree (lines lines' : list str) (b : HttpBlock) :
  firstn (S (end_line_index b)) lines' = firstn (S (end_line_index b)) lines ->
  located lines b -> located lines' b.
Proof.
  intros E ((i & A & M) & R & Z & N).
  pose proof (opening_at_order lines i _ A) as Hi.
  assert (E' : firstn (S (end_line_index b)) lines
               = firstn (S (end_line_index b)) lines') by (symmetry; exact E).
  split; [|split; [|split]].
  - exists i. split.
    + apply (opening_at_agree lines lines' i _ (end_line_index b) E); [lia|exact A].
    + intros j o' Hj A'. apply (M j o' Hj).
      apply (opening_at_agree lines' lines j o' (end_line_index b) E');
        [lia | exact A'].
  - split; [lia|]. apply nth_error_Some.
    rewrite (nth_error_agree _ lines lines' _ (end_line_index b) E) by lia.
    apply nth_error_Some. lia.
  - rewrite (depth_at_agree lines lines' _ _ (end_line_index b) E) by lia.
    exact Z.
  - intros e He.
    rewrite (depth_at_agree lines lines' _ _ (end_line_index b) E) by lia.
    exact (N e He).
Qed.

Lemma located_found (lines : list str) (b : HttpBlock) :
  located lines b -> find_http_block lines = Ok (Some b).
Proof.
  intros L. pose proof (find_http_block_cases lines) as H.
  destruct (find_http_block lines) as [[b0|]|]; [| |destruct H].
  - rewrite (located_unique lines _ _ H L). reflexivity.
  - destruct (located_not_no_block lines b L H).
Qed.

(** X4: nothing after the end line of the located block is looked at. A
    file that agrees with this one up to and including that line gets the
    same block and the same inclusion result, whatever follows: further
    includes, a second [http] block, stray braces. *)
Theorem after_block_ignored (lines lines' : list str) (b : HttpBlock) :
  find_http_block lines = Ok (Some b) ->
  firstn (S (end_line_index b)) lines' = firstn (S (end_line_index b)) lines ->
  find_http_block lines' = Ok (Some b)
  /\ forall dir, includes_snippets_in lines' dir = includes_snippets_in lines dir.
Proof.
  intros F E.
  pose proof (find_http_block_cases lines) as L. rewrite F in L.
  pose proof (located_found lines' b (located_agree lines lines' b E L)) as F'.
  split; [exact F'|]. intros dir.
  destruct (includes_snippets_in_cases lines dir) as [[E1 _]|(b1 & E1 & L1 & ->)];
    [congruence|].
  destruct (includes_snippets_in_cases lines' dir) as [[E2 _]|(b2 & E2 & _ & ->)];
    [congruence|].
  rewrite F in E1; injection E1 as <-. rewrite F' in E2; injection E2 as <-.
  destruct L as (_ & R & _).
  rewrite (span_agree _ lines lines' _ _ (end_line_index b) E) by lia.
  reflexivity.
Qed.

Lemma after_block_ignored_witness :
  find_http_block
    (splitlines conf_relative
     ++ [lit "http {" ++ [LF]; lit "include other/*.conf;" ++ [LF]; lit "}}" ++ [LF]])
  = Ok (Some (mkHttpBlock 0 2))
  /\ forall dir,
       includes_snippets_in
         (splitlines conf_relative
          ++ [lit "http {" ++ [LF]; lit "include other/*.conf;" ++ [LF];
              lit "}}" ++ [LF]]) dir
       = includes_snippets_in (splitlines conf_relative) dir.
Proof.
  apply (after_block_ignored (splitlines conf_relative)
           (splitlines conf_relative
            ++ [lit "http {" ++ [LF]; lit "include other/*.conf;" ++ [LF];
                lit "}}" ++ [LF]])
           (mkHttpBlock 0 2)); vm_compute; reflexivity.
Defined.

(** ** What precedes the block *)

Lemma py_index_app_shift (A : Type) (pre l : list A) (k : nat) :
  py_index (pre ++ l) (length pre + k) = py_index l k.
Proof.
  unfold py_index. rewrite nth_error_app2 by lia.
  replace (length pre + k - length pre) with k by lia. reflexivity.
Qed.

Lemma find_http_open_shift (pre lines : list str) :
  forall rest k,
    find_http_open (pre ++ lines) (length pre + k) rest
    = match find_http_open lines k rest with
      | Ok (Some o) => Ok (Some (length pre + o))
      | r => r
      end.
Proof.
  induction rest as [|raw rest IH]; intros k; [reflexivity|].
  cbn [find_http_open].
  replace (S (length pre + k)) with (length pre + S k) by lia.
  rewrite (IH (S k)).
  replace (length pre + k + 1) with (length pre + (k + 1)) by lia.
  rewrite py_index_app_shift.
  replace (length pre + (k + 1) <? length (pre ++ lines)) with (k + 1 <? length lines).
  2:{ rewrite length_app. destruct (Nat.ltb_spec (k + 1) (length lines)),
        (Nat.ltb_spec (length pre + (k + 1)) (length pre + length lines));
        try reflexivity; lia. }
  destruct (truthy (re_match HTTP_OPEN_RE (_strip_comments raw)));
    [f_equal; f_equal; lia|].
  destruct (truthy (re_match HTTP_ALONE_RE (_strip_comments raw)));
    [|reflexivity].
  destruct (k + 1 <? length lines); [|reflexivity].
  destruct (py_index lines (k + 1)) as [next|e]; cbn [bind]; [|reflexivity].
  destruct (truthy (re_match BRACE_RE (_strip_comments next))); reflexivity.
Qed.

Lemma find_http_open_skip (lines : list str) :
  forall pre rest j,
    (forall raw, In raw pre ->
       truthy (re_match HTTP_OPEN_RE (_strip_comments raw)) = false
       /\ truthy (re_match HTTP_ALONE_RE (_strip_comments raw)) = false) ->
    find_http_open lines j (pre ++ rest)
    = find_http_open lines (j + length pre) rest.
Proof.
  induction pre as [|raw pre IH]; intros rest j H.
  - cbn [app length]. rewrite Nat.add_0_r. reflexivity.
  - cbn [app find_http_open length].
    destruct (H raw (or_introl eq_refl)) as [-> ->].
    rewrite (IH rest (S j)) by (intros r Hr; apply H; right; exact Hr).
    f_equal. lia.
Qed.

Lemma scan_depth_shift (pre lines : list str) (o : nat) :
  forall n i d,
    scan_depth (pre ++ lines) (length pre + o) d (seq (length pre + i) n)
    = match scan_depth lines o d (seq i n) with
      | Ok (Some b) => Ok (Some (shift_block (length pre) b))
      | r => r
      end.
Proof.
  induction n as [|n IH]; intros i d; [reflexivity|].
  cbn [seq scan_depth]. rewrite py_index_app_shift.
  destruct (py_index lines i) as [raw|e]; cbn [bind]; [|reflexivity].
  replace (length pre + o <? length pre + i) with (o <? i)
    by (destruct (Nat.ltb_spec o i),
          (Nat.ltb_spec (length pre + o) (length pre + i));
        try reflexivity; lia).
  replace (S (length pre + i)) with (length pre + S i) by lia.
  rewrite IH.
  destruct ((_ =? 0)%Z && (o <? i)); reflexivity.
Qed.

Lemma find_http_block_shift (pre lines : list str) :
  (forall raw, In raw pre ->
     truthy (re_match HTTP_OPEN_RE (_strip_comments raw)) = false
     /\ truthy (re_match HTTP_ALONE_RE (_strip_comments raw)) = false) ->
  find_http_block (pre ++ lines)
  = match find_http_block lines with
    | Ok (Some b) => Ok (Some (shift_block (length pre) b))
    | r => r
    end.
Proof.
  intros H. unfold find_http_block.
  rewrite (find_http_open_skip (pre ++ lines) pre lines 0 H).
  rewrite (Nat.add_comm 0 (length pre)).
  rewrite (find_http_open_shift pre lines lines 0).
  destruct (find_http_open lines 0 lines) as [[o|]|]; cbn [bind];
    [|reflexivity|reflexivity].
  unfold py_range. rewrite length_app.
  replace (length pre + length lines - (length pre + o))
    with (length lines - o) by lia.
  apply scan_depth_shift.
Qed.

Lemma skipn_app_shift (A : Type) (pre l : list A) (k : nat) :
  skipn (length pre + k) (pre ++ l) = skipn k l.
Proof. induction pre; cbn; auto. Qed.

(** X5: lines before the block that neither read [http {] nor [http] alone
    only move the block down. Whatever else they hold, braces of an earlier
    block or include directives, the block found is the one of the rest of
    the file, shifted, and the inclusion result is that of the rest. *)
Theorem before_block_ignored (pre lines : list str) :
  (forall raw, In raw pre ->
     ~ one_line_open (_strip_comments raw)
     /\ ~ http_alone (_strip_comments raw)) ->
  find_http_block (pre ++ lines)
  = match find_http_block lines with
    | Ok (Some b) => Ok (Some (shift_block (length pre) b))
    | r => r
    end
  /\ forall dir, includes_snippets_in (pre ++ lines) dir
                 = includes_snippets_in lines dir.
Proof.
  intros H.
  assert (F : find_http_block (pre ++ lines)
              = match find_http_block lines with
                | Ok (Some b) => Ok (Some (shift_block (length pre) b))
                | r => r
                end).
  { apply find_http_block_shift. intros raw Hin.
    destruct (H raw Hin) as [N1 N2]. split.
    - destruct (truthy (re_match HTTP_OPEN_RE (_strip_comments raw))) eqn:E;
        [|reflexivity].
      apply http_open_iff in E. destruct (N1 E).
    - destruct (truthy (re_match HTTP_ALONE_RE (_strip_comments raw))) eqn:E;
        [|reflexivity].
      apply http_alone_iff in E. destruct (N2 E). }
  split; [exact F|]. intros dir.
  destruct (includes_snippets_in_cases lines dir) as [[E1 ->]|(b & E1 & L & ->)];
    rewrite E1 in F;
    destruct (includes_snippets_in_cases (pre ++ lines) dir)
      as [[E2 ->]|(b2 & E2 & _ & ->)]; try congruence.
  rewrite F in E2; injection E2 as <-. f_equal.
  cbn [shift_block start_line_index end_line_index].
  rewrite skipn_app_shift.
  replace (S (length pre + end_line_index b) - (length pre + start_line_index b))
    with (S (end_line_index b) - start_line_index b) by lia.
  reflexivity.
Qed.

Lemma before_block_ignored_witness :
  find_http_block
    ([lit "events { {" ++ [LF]; lit "include conf.d/*.conf;" ++ [LF]]
     ++ splitlines conf_two_line)
  = Ok (Some (mkHttpBlock 4 6))
  /\ forall dir,
       includes_snippets_in
         ([lit "events { {" ++ [LF]; lit "include conf.d/*.conf;" ++ [LF]]
          ++ splitlines conf_two_line) dir
       = includes_snippets_in (splitlines conf_two_line) dir.
Proof.
  destruct (before_block_ignored
              [lit "events { {" ++ [LF]; lit "include conf.d/*.conf;" ++ [LF]]
              (splitlines conf_two_line)) as [H1 H2].
  - intros raw [<-|[<-|[]]]; split; intros H;
      first [apply http_open_iff in H | apply http_alone_iff in H];
      vm_compute in H; discriminate H.
  - split; [|exact H2]. etransitivity; [exact H1|]. vm_compute. reflexivity.
Defined.

(** ** Trailing slashes of the snippets directory *)

Lemma rstrip_slashes (dir : str) (k : nat) :
  py_rstrip_char slash (dir ++ repeat slash k) = py_rstrip_char slash dir.
Proof. apply rstrip_app_blank. apply repeat_all_slashes. Qed.

Lemma targets_slashes (dir : str) (k : nat) :
  targets (dir ++ repeat slash k) = targets dir.
Proof.
  unfold targets, include_abs, include_rel. rewrite rstrip_slashes.
  reflexivity.
Qed.

(** X6: trailing slashes on the snippets directory change nothing: the
    inclusion result, the exit status and what the command writes are the
    same with [dir], [dir/], [dir//] and so on. *)
Theorem snippets_dir_trailing_slashes
    (fs : filesystem) (conf_path dir : str) (k : nat) (v : bool) (io : streams) :
  nginx_conf_includes_snippets fs conf_path (dir ++ repeat slash k)
  = nginx_conf_includes_snippets fs conf_path dir
  /\ _cmd_includes_snippets fs
       {| conf := conf_path; snippets_dir := dir ++ repeat slash k; verbose := v |} io
     = _cmd_includes_snippets fs
         {| conf := conf_path; snippets_dir := dir; verbose := v |} io.
Proof.
  assert (E : forall path,
             nginx_conf_includes_snippets fs path (dir ++ repeat slash k)
             = nginx_conf_includes_snippets fs path dir).
  { intros path. unfold nginx_conf_includes_snippets, includes_snippets_in.
    rewrite targets_slashes. reflexivity. }
  split; [exact (E conf_path)|].
  unfold _cmd_includes_snippets.
  cbn [conf snippets_dir verbose]. rewrite E. reflexivity.
Qed.

(** ** Directives as written *)

Lemma blank_no_hash (w : str) : blank w = true -> ~ In hash w.
Proof.
  intros B Hin. unfold blank in B. rewrite forallb_forall in B.
  specialize (B hash Hin). discriminate B.
Qed.

(** X7: a line written [include <path>;], with any indentation, any white
    space around the path and after the semicolon, and an optional comment
    at the end, parses to the path unquoted, for every path that is not
    empty and holds neither [;] nor [#]. *)
Theorem parse_written_directive (indent sep p gap trail comment : str) :
  blank indent = true -> sep <> [] -> blank sep = true ->
  p <> [] -> forallb not_semicolon p = true -> ~ In hash p ->
  blank gap = true -> blank trail = true ->
  _parse_include_path
    (indent ++ lit "include" ++ sep ++ p ++ gap ++ semicolon :: trail)
  = Some (_unquote p)
  /\ _parse_include_path
       ((indent ++ lit "include" ++ sep ++ p ++ gap ++ semicolon :: trail)
        ++ hash :: comment)
     = Some (_unquote p).
Proof.
  intros B0 N1 B1 Np Sp Hp B2 B3.
  assert (P : _parse_include_path
                (indent ++ lit "include" ++ sep ++ p ++ gap ++ semicolon :: trail)
              = Some (_unquote p)).
  { apply parse_include_path_iff.
    exists indent, sep, p, gap, trail.
    repeat split; try assumption.
    apply strip_comments_none.
    intros Hin. repeat (apply in_app_or in Hin as [Hin|Hin]).
    - exact (blank_no_hash _ B0 Hin).
    - vm_compute in Hin. intuition discriminate.
    - exact (blank_no_hash _ B1 Hin).
    - exact (Hp Hin).
    - exact (blank_no_hash _ B2 Hin).
    - destruct Hin as [Hin|Hin]; [discriminate Hin|].
      exact (blank_no_hash _ B3 Hin). }
  split; [exact P|]. rewrite parse_include_path_cut. exact P.
Qed.

Lemma parse_written_directive_witness :
  _parse_include_path (lit "    include  /etc/nginx/conf.d/*.conf ;" ++ [LF])
  = Some (_unquote (lit "/etc/nginx/conf.d/*.conf"))
  /\ _parse_include_path
       ((lit "    include  /etc/nginx/conf.d/*.conf ;" ++ [LF])
        ++ hash :: lit " snippets")
     = Some (_unquote (lit "/etc/nginx/conf.d/*.conf")).
Proof.
  apply (parse_written_directive (lit "    ") (lit "  ")
           (lit "/etc/nginx/conf.d/*.conf") (lit " ") [LF] (lit " snippets"));
    try reflexivity; try discriminate.
  vm_compute. intuition discriminate.
Defined.

(** X8: the include pattern is anchored at the start of the line too. A
    path is returned only when the stripped line, after its indentation,
    begins with [include] and a white-space character; a line whose first
    visible character is anything but [i], a brace or another directive
    before the include, yields nothing. *)
Theorem include_opens_its_line (line : str) :
  (forall p,
      _parse_include_path line = Some p ->
      exists ws c rest,
        _strip_comments line = ws ++ lit "include" ++ c :: rest
        /\ blank ws = true /\ isspace c = true)
  /\ (forall ws c rest,
        _strip_comments line = ws ++ c :: rest ->
        blank ws = true -> isspace c = false -> c <> chr "i" ->
        _parse_include_path line = None).
Proof.
  assert (A : forall p,
             _parse_include_path line = Some p ->
             exists ws c rest,
               _strip_comments line = ws ++ lit "include" ++ c :: rest
               /\ blank ws = true /\ isspace c = true).
  { intros p P. apply parse_include_path_iff in P
      as (w0 & w1 & arg & w2 & w3 & E & B0 & N1 & B1 & _).
    destruct w1 as [|c w1]; [congruence|].
    cbn [blank forallb] in B1. apply andb_true_iff in B1 as [Bc _].
    exists w0, c, (w1 ++ arg ++ w2 ++ semicolon :: w3).
    split; [exact E|]. split; [exact B0 | exact Bc]. }
  split; [exact A|].
  intros ws c rest E B Hc Hi.
  destruct (_parse_include_path line) as [p|] eqn:P; [|reflexivity].
  destruct (A p eq_refl) as (ws' & c' & rest' & E' & B' & _).
  pose proof (f_equal (drop_while isspace) E) as D.
  rewrite E' in D at 1.
  rewrite (drop_while_app isspace ws' _ B'), (drop_while_app isspace ws _ B) in D.
  rewrite (drop_while_stop isspace (lit "include" ++ _)) in D by reflexivity.
  rewrite (drop_while_stop isspace (c :: rest)) in D by exact Hc.
  injection D as D _. destruct (Hi (eq_sym D)).
Qed.

Lemma include_opens_its_line_witness :
  _parse_include_path (lit "http { include conf.d/*.conf; }" ++ [LF]) = None.
Proof.
  apply (proj2 (include_opens_its_line
                  (lit "http { include conf.d/*.conf; }" ++ [LF]))
           [] (chr "h") (lit "ttp { include conf.d/*.conf; }" ++ [LF]));
    try reflexivity.
  discriminate.
Defined.

(** ** The span returned *)

Lemma brace_in_opening (lines : list str) (o : nat) :
  first_opening lines o ->
  exists raw, nth_error lines o = Some raw /\ In lbrace (_strip_comments raw).
Proof.
  intros (i & (raw & Hn & [[(ws1 & ws2 & rest & E & _) ->]
                          |(_ & -> & next & Hx & (ws & rest & E & _))]) & _).
  - exists raw. split; [exact Hn|]. rewrite E.
    apply in_or_app; right. apply in_or_app; right.
    apply in_or_app; right. left; reflexivity.
  - exists next. split; [exact Hx|]. rewrite E.
    apply in_or_app; right. left; reflexivity.
Qed.

(** X9: a returned block always lies inside the file and spans at least two
    lines: its start is strictly before its end, its end is a line of the
    file, and its start line holds a [{] outside any comment. The slice of
    lines scanned for includes has [end - start + 1] lines. *)
Theorem http_block_bounds (lines : list str) (b : HttpBlock) :
  find_http_block lines = Ok (Some b) ->
  start_line_index b < end_line_index b < length lines
  /\ (exists raw, nth_error lines (start_line_index b) = Some raw
                  /\ In lbrace (_strip_comments raw))
  /\ length (py_slice lines (Z.of_nat (start_line_index b))
               (Z.of_nat (end_line_index b) + 1))
     = end_line_index b - start_line_index b + 1.
Proof.
  intros E. pose proof (find_http_block_cases lines) as H.
  rewrite E in H. destruct H as (F & R & _).
  split; [exact R|]. split; [exact (brace_in_opening lines _ F)|].
  rewrite py_slice_span by lia. rewrite length_firstn, length_skipn. lia.
Qed.

Lemma http_block_bounds_witness :
  2 < 4 < length (splitlines conf_two_line)
  /\ (exists raw, nth_error (splitlines conf_two_line) 2 = Some raw
                  /\ In lbrace (_strip_comments raw))
  /\ length (py_slice (splitlines conf_two_line) 2 (4 + 1)) = 4 - 2 + 1.
Proof.
  apply (http_block_bounds (splitlines conf_two_line) (mkHttpBlock 2 4)).
  vm_compute. reflexivity.
Defined.

(** ** Splitting the text into lines *)

Lemma splitlines_from_spec (n : nat) :
  forall s cur,
    length s <= n ->
    concat (splitlines_from cur s) = rev cur ++ s
    /\ Forall (fun line => line <> []) (splitlines_from cur s).
Proof.
  induction n as [|n IH]; intros s cur Hn.
  - destruct s; [|cbn in Hn; lia]. cbn [splitlines_from].
    destruct cur as [|c cur]; cbn [concat].
    + split; [reflexivity | constructor].
    + rewrite app_nil_r. split; [reflexivity|].
      constructor; [|constructor]. cbn [rev]. intros E.
      apply app_eq_nil in E as [_ E]. discriminate E.
  - destruct s as [|c s].
    + cbn [splitlines_from]. destruct cur as [|x cur]; cbn [concat].
      * split; [reflexivity | constructor].
      * rewrite app_nil_r. split; [reflexivity|].
        constructor; [|constructor]. cbn [rev]. intros E.
        apply app_eq_nil in E as [_ E]. discriminate E.
    + cbn [length] in Hn.
      assert (NE : forall (x : char) l, rev (x :: l) <> []).
      { intros x l E. cbn [rev] in E. apply app_eq_nil in E as [_ E].
        discriminate E. }
      cbn [splitlines_from].
      destruct (N.eqb c CR) eqn:Ec.
      * destruct s as [|d s].
        -- destruct (IH [] [] ltac:(cbn; lia)) as [H1 H2].
           split; [|constructor; [apply NE | exact H2]].
           cbn [concat]. rewrite H1. cbn [rev app]. rewrite app_nil_r.
           reflexivity.
        -- destruct (N.eqb d LF) eqn:Ed.
           ++ destruct (IH s [] ltac:(cbn in Hn; lia)) as [H1 H2].
              split; [|constructor; [apply NE | exact H2]].
              cbn [concat]. rewrite H1. cbn [rev app].
              rewrite <- !app_assoc. reflexivity.
           ++ destruct (IH (d :: s) [] ltac:(cbn in Hn |- *; lia)) as [H1 H2].
              split; [|constructor; [apply NE | exact H2]].
              cbn [concat]. rewrite H1. cbn [rev app].
              rewrite <- !app_assoc. reflexivity.
      * destruct (is_linebreak c).
        -- destruct (IH s [] ltac:(lia)) as [H1 H2].
           split; [|constructor; [apply NE | exact H2]].
           cbn [concat]. rewrite H1. cbn [rev app].
           rewrite <- !app_assoc. reflexivity.
        -- destruct (IH s (c :: cur) ltac:(lia)) as [H1 H2].
           rewrite H1. cbn [rev]. rewrite <- app_assoc. cbn [app].
           split; [reflexivity | exact H2].
Qed.

(** X10: splitting keeps the text: the lines the check works on, put back
    end to end, are the text that was read, character for character, and
    none of them is empty. *)
Theorem splitlines_keeps_text (text : str) :
  concat (splitlines text) = text
  /\ Forall (fun line => line <> []) (splitlines text).
Proof. exact (splitlines_from_spec (length text) text [] (le_n _)). Qed.

(** ** Properly nested blocks *)

Lemma sumZ_app (a b : list Z) : sumZ (a ++ b) = (sumZ a + sumZ b)%Z.
Proof. induction a as [|x a IH]; cbn [app sumZ]; [reflexivity | rewrite IH; lia]. Qed.

Lemma depth_at_from_top (x : str) (l : list str) (e : nat) :
  depth_at (x :: l) 0 e
  = (brace_delta x + sumZ (map brace_delta (firstn e l)))%Z.
Proof. reflexivity. Qed.

Lemma located_nested (open close : str) (body : list str) :
  one_line_open (_strip_comments open) ->
  (forall k, k <= length body ->
             (0 < brace_delta open + sumZ (map brace_delta (firstn k body)))%Z) ->
  (brace_delta open + sumZ (map brace_delta body) + brace_delta close = 0)%Z ->
  located (open :: body ++ [close]) (mkHttpBlock 0 (S (length body))).
Proof.
  intros Ho Hpos Hz. unfold located.
  cbn [start_line_index end_line_index]. split; [|split; [|split]].
  - exists 0. split; [|intros j o' Hj; lia].
    exists open. split; [reflexivity|]. left. split; [exact Ho | reflexivity].
  - cbn [length]. rewrite length_app. cbn [length]. lia.
  - rewrite depth_at_from_top.
    rewrite firstn_all2 by (rewrite length_app; cbn [length]; lia).
    rewrite map_app, sumZ_app. cbn [map sumZ]. lia.
  - intros e He. rewrite depth_at_from_top.
    rewrite firstn_app. replace (e - length body) with 0 by lia.
    cbn [firstn]. rewrite app_nil_r.
    specialize (Hpos e ltac:(lia)). lia.
Qed.

(** X11: on a block whose braces nest properly the span found is the block
    as written. When the first [http] line of the file reads [http {], the
    depth stays positive on it and on every line of the body, and the next
    line brings it back to 0, the block runs from the [http {] line to that
    closing line, and the inclusion result is the scan of exactly these
    lines, whatever precedes and follows them. *)
Theorem nested_block_located (pre body rest : list str) (open close : str) :
  (forall raw, In raw pre ->
     ~ one_line_open (_strip_comments raw)
     /\ ~ http_alone (_strip_comments raw)) ->
  one_line_open (_strip_comments open) ->
  (forall k, k <= length body ->
             (0 < brace_delta open + sumZ (map brace_delta (firstn k body)))%Z) ->
  (brace_delta open + sumZ (map brace_delta body) + brace_delta close = 0)%Z ->
  find_http_block (pre ++ (open :: body ++ [close]) ++ rest)
  = Ok (Some (mkHttpBlock (length pre) (length pre + S (length body))))
  /\ forall dir,
       includes_snippets_in (pre ++ (open :: body ++ [close]) ++ rest) dir
       = Ok (scan_includes (targets dir) (open :: body ++ [close])).
Proof.
  intros Hpre Ho Hpos Hz.
  pose proof (located_nested open close body Ho Hpos Hz) as L0.
  assert (Len : length (open :: body ++ [close]) = S (S (length body)))
    by (cbn [length]; rewrite length_app; cbn [length]; lia).
  assert (F1 : find_http_block ((open :: body ++ [close]) ++ rest)
               = Ok (Some (mkHttpBlock 0 (S (length body))))).
  { apply located_found. apply (located_agree (open :: body ++ [close])); [|exact L0].
    cbn [end_line_index]. rewrite <- Len.
    rewrite firstn_app_exact, firstn_all. reflexivity. }
  assert (F : find_http_block (pre ++ (open :: body ++ [close]) ++ rest)
              = Ok (Some (mkHttpBlock (length pre) (length pre + S (length body))))).
  { rewrite find_http_block_shift.
    - rewrite F1. unfold shift_block. cbn [start_line_index end_line_index].
      rewrite Nat.add_0_r. reflexivity.
    - intros raw Hin. destruct (Hpre raw Hin) as [N1 N2]. split.
      + destruct (truthy (re_match HTTP_OPEN_RE (_strip_comments raw))) eqn:E;
          [|reflexivity].
        apply http_open_iff in E. destruct (N1 E).
      + destruct (truthy (re_match HTTP_ALONE_RE (_strip_comments raw))) eqn:E;
          [|reflexivity].
        apply http_alone_iff in E. destruct (N2 E). }
  split; [exact F|]. intros dir.
  destruct (includes_snippets_in_cases
              (pre ++ (open :: body ++ [close]) ++ rest) dir)
    as [[E _]|(b & E & _ & ->)]; [congruence|].
  rewrite F in E; injection E as <-. f_equal.
  cbn [start_line_index end_line_index].
  rewrite scan_includes_existsb. f_equal.
  rewrite skipn_app_exact.
  replace (S (length pre + S (length body)) - length pre)
    with (length (open :: body ++ [close])) by lia.
  apply firstn_app_exact.
Qed.

Lemma nested_block_located_witness :
  find_http_block
    ([lit "user www-data;" ++ [LF]]
     ++ ((lit "http {" ++ [LF]) :: nested_body ++ [lit "}" ++ [LF]])
     ++ [lit "include other/*.conf;" ++ [LF]])
  = Ok (Some (mkHttpBlock 1 6))
  /\ forall dir,
       includes_snippets_in
         ([lit "user www-data;" ++ [LF]]
          ++ ((lit "http {" ++ [LF]) :: nested_body ++ [lit "}" ++ [LF]])
          ++ [lit "include other/*.conf;" ++ [LF]]) dir
       = Ok (scan_includes (targets dir)
               ((lit "http {" ++ [LF]) :: nested_body ++ [lit "}" ++ [LF]])).
Proof.
  apply (nested_block_located [lit "user www-data;" ++ [LF]] nested_body
           [lit "include other/*.conf;" ++ [LF]]
           (lit "http {" ++ [LF]) (lit "}" ++ [LF])).
  - intros raw [<-|[]]; split; intros H;
      first [apply http_open_iff in H | apply http_alone_iff in H];
      vm_compute in H; discriminate H.
  - apply http_open_iff. vm_compute. reflexivity.
  - intros k Hk. destruct k as [|[|[|[|[|k]]]]];
      [vm_compute; reflexivity ..|cbn in Hk; lia].
  - vm_compute. reflexivity.
Defined.
